(** * trackrec: the MPRIS FLAC recorder ([bin/mpris_flac_recorder.py])

    A shallow embedding of the recorder's state machine.  Python strings are
    byte strings ([string]; the character classes are the ASCII ones),
    timestamps of [time.time()] are exact rationals ([Q]), the dictionary of
    D-Bus variants is a [gmap] over an abstract value type, sets are [gset]s.
    Methods of [Recorder] are programs of a small state-and-exception monad
    over the object ([self]) and the outside world: the regular files, the
    index and status files, the child processes, and the answers of the
    environment (clock, player, success of writes, of [Popen] and of
    [wait]), which are arbitrary.

    Not modelled: console output ([print]); directories ([os.makedirs]);
    failures of the bus calls and of [os.remove] other than
    [FileNotFoundError]; the connection to the player ([connect_player],
    [pick_mpris_player]) and the command line ([main]'s argument parser). *)

From Stdlib Require Import Ascii QArith.
From stdpp Require Import base gmap strings list pretty sorting.

Local Open Scope Z_scope.

(** ** Python strings *)

Module Py.

Definition chars (s : string) : list ascii := String.list_ascii_of_string s.
Definition str_of (l : list ascii) : string := String.string_of_list_ascii l.

Definition truthy (s : string) : bool :=
  match s with EmptyString => false | _ => true end.

Definition code (c : ascii) : N := N_of_ascii c.

(** [str.isspace] on the ASCII range: TAB, LF, VT, FF, CR, FS, GS, RS, US
    and the blank. *)
Definition isspace (c : ascii) : bool :=
  let n := code c in
  ((9 <=? n) && (n <=? 13) || (28 <=? n) && (n <=? 32))%N.

Fixpoint lstrip_by (p : ascii → bool) (l : list ascii) : list ascii :=
  match l with
  | c :: l' => if p c then lstrip_by p l' else l
  | [] => []
  end.

Definition strip_by (p : ascii → bool) (s : string) : string :=
  str_of (reverse (lstrip_by p (reverse (lstrip_by p (chars s))))).

(** [s.strip()] *)
Definition strip (s : string) : string := strip_by isspace s.

(** [s.strip(cs)]: strips the characters that occur in [cs]. *)
Definition strip_chars (cs : string) (s : string) : string :=
  strip_by (λ c, bool_decide (c ∈ chars cs)) s.

(** [re.sub(cls + "+", rep, s)] for a character class [cls]: every maximal
    run of characters of the class becomes one [rep]. *)
Fixpoint sub_runs (cls : ascii → bool) (rep : ascii) (in_run : bool)
    (l : list ascii) : list ascii :=
  match l with
  | [] => []
  | c :: l' =>
      if cls c
      then (if in_run then sub_runs cls rep true l'
            else rep :: sub_runs cls rep true l')
      else c :: sub_runs cls rep false l'
  end.

Definition re_sub_runs (cls : ascii → bool) (rep : ascii) (s : string) : string :=
  str_of (sub_runs cls rep false (chars s)).

(** [s[:n]] *)
Definition prefix (n : nat) (s : string) : string := str_of (take n (chars s)).

(** [str(i)] for an [int]. *)
Definition str_int (i : Z) : string := pretty i.

(** [int(s)] for a [str] of ASCII characters: blanks around, an optional
    sign, then decimal digits that single underscores may separate.  [None]
    stands for [ValueError]. *)
Definition digit (c : ascii) : option Z :=
  let n := code c in
  if ((48 <=? n) && (n <=? 57))%N then Some (Z.of_N n - 48) else None.

Fixpoint int_digits (l : list ascii) (acc : Z) (after_digit : bool) : option Z :=
  match l with
  | [] => if after_digit then Some acc else None
  | c :: l' =>
      if bool_decide (c = "_"%char)
      then (if after_digit then int_digits l' acc false else None)
      else match digit c with
           | Some d => int_digits l' (10 * acc + d) true
           | None => None
           end
  end.

Definition int_of_str (s : string) : option Z :=
  match chars (strip s) with
  | c :: l =>
      if bool_decide (c = "-"%char) then Z.opp <$> int_digits l 0 false
      else if bool_decide (c = "+"%char) then int_digits l 0 false
      else int_digits (c :: l) 0 false
  | [] => None
  end.

End Py.

(** [sanitize(s)] (the argument is never [None] here, so [s or ""] is [s]). *)
Definition forbidden (c : ascii) : bool :=
  bool_decide (c ∈ ["/"; "\"; ":"; "*"; "?"; "034"; "<"; ">"; "|"]%char).

Definition sanitize (s : string) : string :=
  let s := Py.strip s in
  let s := Py.re_sub_runs forbidden "_" s in
  let s := Py.strip (Py.re_sub_runs Py.isspace " " s) in
  if Py.truthy s then Py.prefix 180 s else "unknown".

(** ** Exceptions *)

Inductive exn :=
  | TypeError
  | KeyError
  | IndexError
  | OSError
  | FileNotFoundError
  | TimeoutExpired
  | Unbounded.     (* the bound of the model on [while True] was reached *)

#[export] Instance exn_eq_dec : EqDecision exn.
Proof. solve_decision. Defined.

Inductive result (A : Type) :=
  | Ok (a : A)
  | Raise (e : exn).
Arguments Ok {A} a.
Arguments Raise {A} e.

(** ** Values of the D-Bus property bag

    The recorder is duck-typed: of a variant it only takes [str(v)], [int(v)],
    its truth value and [v[0]].  [int(v)] is only called under
    [except Exception], so [None] stands for whatever it raises; [v[0]] is
    called bare, so it answers with the exception it raises: [TypeError] on a
    value without items, [IndexError] on an empty sequence, [KeyError] on a
    mapping without the key [0]. *)

Class PyValue (V : Type) := {
  py_str : V → string;
  py_int : V → option Z;
  py_bool : V → bool;
  py_item0 : V → result V;
}.

(** [dbus.Int32] and the other integer types, [dbus.String] and
    [dbus.ObjectPath]. *)
Inductive dbus_value :=
  | DInt (z : Z)
  | DString (s : string).

#[export] Instance dbus_value_py : PyValue dbus_value := {|
  py_str v := match v with DInt z => Py.str_int z | DString s => s end;
  py_int v := match v with DInt z => Some z | DString s => Py.int_of_str s end;
  py_bool v := match v with DInt z => negb (z =? 0) | DString s => Py.truthy s end;
  py_item0 v :=
    match v with
    | DInt _ => Raise TypeError
    | DString (String c _) => Ok (DString (String c EmptyString))
    | DString EmptyString => Raise IndexError
    end;
|}.

(** The dictionary [get_metadata] returns. *)
Record Metadata := {
  trackid : string;
  artist : string;
  title : string;
  album : string;
  url : string;
  tracknumber : string;
  discnumber : string;
}.

Section Normalizer.
Context {V : Type} `{PyValue V}.

(** [to_int_str(v)]; the argument is [md.get(key)], [None] when the key is
    missing. *)
Definition to_int_str (v : option V) : string :=
  match v with
  | None => ""
  | Some v =>
      match py_int v with
      | Some i => if 0 <? i then Py.str_int i else ""
      | None => ""
      end
  end.

(** [str(md.get(key, ""))] *)
Definition str_get (md : gmap string V) (key : string) : string :=
  match md !! key with
  | Some v => py_str v
  | None => ""
  end.

(** [artists = md.get("xesam:artist") or []] and
    [str(artists[0]) if artists else ""]. *)
Definition first_artist (md : gmap string V) : result string :=
  match md !! "xesam:artist" with
  | Some artists =>
      if py_bool artists then
        match py_item0 artists with
        | Ok a => Ok (py_str a)
        | Raise e => Raise e
        end
      else Ok ""
  | None => Ok ""
  end.

(** The body of [get_metadata] after the property was fetched. *)
Definition normalize (md : gmap string V) : result Metadata :=
  match first_artist md with
  | Ok a =>
      Ok {| trackid := str_get md "mpris:trackid";
            artist := a;
            title := str_get md "xesam:title";
            album := str_get md "xesam:album";
            url := str_get md "xesam:url";
            tracknumber := to_int_str (md !! "xesam:trackNumber");
            discnumber := to_int_str (md !! "xesam:discNumber") |}
  | Raise e => Raise e
  end.


End Normalizer.


(** ** The recorder object and the outside world *)

Record Config := {
  out_dir : string;
  source : string;
  comp_level : Z;
  min_seconds : Z;
  dedupe : bool;
}.

(** The attributes of [self] that the methods read and assign.  A child
    process is named by its position in the world's table of children;
    [pending = None] is the empty dictionary [{}]. *)
Record Recorder := {
  config : Config;
  proc : option nat;
  current_path : option string;
  current_started_at : option Q;
  current_track_id : option string;
  current_url : option string;
  playback_status : option string;
  pending : option Metadata;
  seen_urls : gset string;
}.

Definition set_proc (v : option nat) (r : Recorder) : Recorder :=
  {| config := config r; proc := v; current_path := current_path r;
     current_started_at := current_started_at r;
     current_track_id := current_track_id r; current_url := current_url r;
     playback_status := playback_status r; pending := pending r;
     seen_urls := seen_urls r |}.

Definition set_current_path (v : option string) (r : Recorder) : Recorder :=
  {| config := config r; proc := proc r; current_path := v;
     current_started_at := current_started_at r;
     current_track_id := current_track_id r; current_url := current_url r;
     playback_status := playback_status r; pending := pending r;
     seen_urls := seen_urls r |}.

Definition set_current_started_at (v : option Q) (r : Recorder) : Recorder :=
  {| config := config r; proc := proc r; current_path := current_path r;
     current_started_at := v;
     current_track_id := current_track_id r; current_url := current_url r;
     playback_status := playback_status r; pending := pending r;
     seen_urls := seen_urls r |}.

Definition set_current_track_id (v : option string) (r : Recorder) : Recorder :=
  {| config := config r; proc := proc r; current_path := current_path r;
     current_started_at := current_started_at r;
     current_track_id := v; current_url := current_url r;
     playback_status := playback_status r; pending := pending r;
     seen_urls := seen_urls r |}.

Definition set_current_url (v : option string) (r : Recorder) : Recorder :=
  {| config := config r; proc := proc r; current_path := current_path r;
     current_started_at := current_started_at r;
     current_track_id := current_track_id r; current_url := v;
     playback_status := playback_status r; pending := pending r;
     seen_urls := seen_urls r |}.

Definition set_playback_status (v : option string) (r : Recorder) : Recorder :=
  {| config := config r; proc := proc r; current_path := current_path r;
     current_started_at := current_started_at r;
     current_track_id := current_track_id r; current_url := current_url r;
     playback_status := v; pending := pending r;
     seen_urls := seen_urls r |}.

Definition set_pending (v : option Metadata) (r : Recorder) : Recorder :=
  {| config := config r; proc := proc r; current_path := current_path r;
     current_started_at := current_started_at r;
     current_track_id := current_track_id r; current_url := current_url r;
     playback_status := playback_status r; pending := v;
     seen_urls := seen_urls r |}.

Definition set_seen_urls (v : gset string) (r : Recorder) : Recorder :=
  {| config := config r; proc := proc r; current_path := current_path r;
     current_started_at := current_started_at r;
     current_track_id := current_track_id r; current_url := current_url r;
     playback_status := playback_status r; pending := pending r;
     seen_urls := v |}.

(** A value written to the status file: a text, or a duration that the
    source prints with [f"{dur:.1f}"]. *)
Inductive field :=
  | Text (s : string)
  | Seconds (d : Q).

Inductive child_state := Running | Exited | Killed.

Record Child := {
  argv : list string;
  interrupted : bool;
  state : child_state;
}.

(** The world outside the object: the regular files that exist, the content
    of [<out_dir>/.spotify_index] and of the status file ([None]: no such
    file; the content of the index is text, as read with its encoding),
    every child spawned so far, and the number of questions asked to the
    environment so far. *)
Record World := {
  files : gset string;
  index_file : option string;
  status_file : option (list (string * field));
  children : list Child;
  tick : nat;
}.

Definition set_files (v : gset string) (w : World) : World :=
  {| files := v; index_file := index_file w; status_file := status_file w;
     children := children w; tick := tick w |}.

Definition set_index_file (v : option string) (w : World) : World :=
  {| files := files w; index_file := v; status_file := status_file w;
     children := children w; tick := tick w |}.

Definition set_status_file (v : option (list (string * field))) (w : World) : World :=
  {| files := files w; index_file := index_file w; status_file := v;
     children := children w; tick := tick w |}.

Definition set_children (v : list Child) (w : World) : World :=
  {| files := files w; index_file := index_file w; status_file := status_file w;
     children := v; tick := tick w |}.

Definition set_tick (v : nat) (w : World) : World :=
  {| files := files w; index_file := index_file w; status_file := status_file w;
     children := children w; tick := v |}.

(** What the environment answers to the [n]-th question: the wall clock, the
    player's [Metadata] and [PlaybackStatus] properties, whether a file can be
    opened and written, whether [ffmpeg] can be spawned, whether a child exits
    within the five seconds of [wait]. *)
Record Env (V : Type) := {
  clock : nat → Q;
  player_metadata : nat → gmap string V;
  player_status : nat → V;
  writable : nat → bool;
  spawnable : nat → bool;
  exits_in_time : nat → bool;
}.
Arguments clock {V} _ _.
Arguments player_metadata {V} _ _.
Arguments player_status {V} _ _.
Arguments writable {V} _ _.
Arguments spawnable {V} _ _.
Arguments exits_in_time {V} _ _.

(** ** The monad of methods *)

Definition M (A : Type) : Type := Recorder → World → result A * Recorder * World.

#[export] Instance M_ret : MRet M := λ A a self w, (Ok a, self, w).

#[export] Instance M_bind : MBind M := λ A B f m self w,
  match m self w with
  | (Ok a, self', w') => f a self' w'
  | (Raise e, self', w') => (Raise e, self', w')
  end.

Definition raise {A} (e : exn) : M A := λ self w, (Raise e, self, w).
Definition get_self : M Recorder := λ self w, (Ok self, self, w).
Definition get_world : M World := λ self w, (Ok w, self, w).
Definition assign (f : Recorder → Recorder) : M unit := λ self w, (Ok (), f self, w).
Definition effect (f : World → World) : M unit := λ self w, (Ok (), self, f w).
Definition lift {A} (r : result A) : M A := λ self w, (r, self, w).

(** [try: body except <handled>: handler] *)
Definition try_except {A} (body : M A) (handled : exn → bool) (handler : M A) : M A :=
  λ self w,
    match body self w with
    | (Raise e, self', w') =>
        if handled e then handler self' w' else (Raise e, self', w')
    | r => r
    end.

(** [try: body finally: final] *)
Definition try_finally {A} (body : M A) (final : M unit) : M A :=
  λ self w,
    match body self w with
    | (r, self', w') =>
        match final self' w' with
        | (Ok _, self'', w'') => (r, self'', w'')
        | (Raise e, self'', w'') => (Raise e, self'', w'')
        end
    end.

(** [except Exception] catches every exception; running without bound is not
    one. *)
Definition Exception (e : exn) : bool := negb (bool_decide (e = Unbounded)).
Definition only (e0 : exn) (e : exn) : bool := bool_decide (e = e0).

(** [s.splitlines()] as the text-mode iteration over a file uses it: LF and
    CR end a line. *)
Fixpoint split_lines (cur : list ascii) (l : list ascii) : list string :=
  match l with
  | [] => match cur with [] => [] | _ => [Py.str_of (reverse cur)] end
  | c :: l' =>
      if bool_decide (c = "010"%char) || bool_decide (c = "013"%char)
      then Py.str_of (reverse cur) :: split_lines [] l'
      else split_lines (c :: cur) l'
  end.

(** The line feed ["\n"]. *)
Definition LF : string := String "010"%char EmptyString.

(** [os.path.join(a, b)] *)
Definition starts_with_slash (b : string) : bool :=
  match b with
  | String c _ => bool_decide (c = "/"%char)
  | EmptyString => false
  end.

Definition os_path_join (a b : string) : string :=
  if starts_with_slash b then b
  else
    match reverse (Py.chars a) with
    | [] => b
    | c :: _ => if bool_decide (c = "/"%char) then a +:+ b else a +:+ "/" +:+ b
    end.

(** The path the loop of [unique_path] tries in round [i]. *)
Definition candidate (dir base : string) (i : nat) : string :=
  os_path_join dir (base +:+ " (" +:+ Py.str_int (Z.of_nat i) +:+ ").flac").

(** [int(t)] of a float: truncation towards zero. *)
Definition int_of_float (t : Q) : Z := Z.quot (Qnum t) (Zpos (Qden t)).

(** [t] as a condition: [0.0] is false. *)
Definition float_truthy (t : Q) : bool := negb (Qeq_bool t 0).

(** [a < b] on seconds. *)
Definition float_lt (a b : Q) : bool := negb (Qle_bool b a).

Section Methods.
Context {V : Type} `{PyValue V} (env : Env V).

(** *** Primitives: the standard library and the bus *)

Definition ask {A} (answer : Env V → nat → A) : M A := λ self w,
  (Ok (answer env (tick w)), self, set_tick (S (tick w)) w).

Definition time_time : M Q := ask clock.
Definition props_Get_Metadata : M (gmap string V) := ask player_metadata.
Definition props_Get_PlaybackStatus : M V := ask player_status.

Definition os_path_exists (p : string) : M bool :=
  w ← get_world; mret (bool_decide (p ∈ files w)).

(** [os.remove(p)] on a file that can be removed when it exists: of its
    failures the model has the [FileNotFoundError] that [_finalize] catches;
    a [PermissionError] or another [OSError] on an existing file is not
    modelled. *)
Definition os_remove (p : string) : M unit :=
  w ← get_world;
  if bool_decide (p ∈ files w) then effect (set_files (files w ∖ {[p]}))
  else raise FileNotFoundError.

(** [subprocess.Popen(cmd)]: the child joins the table and runs. *)
Definition Popen (cmd : list string) : M nat :=
  ok ← ask spawnable;
  if ok : bool then
    w ← get_world;
    effect (set_children
      (children w ++ [{| argv := cmd; interrupted := false; state := Running |}]));;
    mret (length (children w))
  else raise OSError.

Definition update_child (p : nat) (f : Child → Child) : M unit :=
  effect (λ w, set_children (alter f p (children w)) w).

Definition send_signal_SIGINT (p : nat) : M unit :=
  update_child p (λ c, {| argv := argv c; interrupted := true; state := state c |}).

(** [proc.wait(timeout=5)] *)
Definition wait (p : nat) : M unit :=
  ok ← ask exits_in_time;
  if ok : bool then
    update_child p (λ c, {| argv := argv c; interrupted := interrupted c; state := Exited |})
  else raise TimeoutExpired.

Definition kill (p : nat) : M unit :=
  update_child p (λ c, {| argv := argv c; interrupted := interrupted c; state := Killed |}).

(** [with open(self.status_file, "w") as f: ...]: the file gets the new
    content, or the attempt raises and the file stays as it was. *)
Definition write_status_file (fields : list (string * field)) : M unit :=
  ok ← ask writable;
  if ok : bool then effect (set_status_file (Some fields)) else raise OSError.

(** [with open(self.index_file, "a") as f: f.write(text)] *)
Definition append_index_file (text : string) : M unit :=
  ok ← ask writable;
  if ok : bool then
    effect (λ w, set_index_file (Some (default "" (index_file w) +:+ text)) w)
  else raise OSError.

(** [with open(self.index_file, encoding=utf-8) as f], reading mode: an
    index file that exists is one that can be opened and decodes as text;
    a file that cannot be read or decoded is not modelled. *)
Definition read_index_file : M string :=
  w ← get_world;
  match index_file w with
  | Some text => mret text
  | None => raise FileNotFoundError
  end.

(** *** Methods of [Recorder] *)

Definition _write_status (fields : list (string * field)) : M unit :=
  try_except (write_status_file fields) Exception (mret ()).

Definition _load_index : M unit :=
  try_except
    (text ← read_index_file;
     assign (λ self,
       set_seen_urls
         (foldl (λ seen line,
                   let u := Py.strip line in
                   if Py.truthy u then {[u]} ∪ seen else seen)
                (seen_urls self) (split_lines [] (Py.chars text)))
         self))
    (only FileNotFoundError) (mret ()).

Definition _append_index (url : string) : M unit :=
  if negb (Py.truthy url) then mret ()
  else
    assign (λ self, set_seen_urls ({[url]} ∪ seen_urls self) self);;
    try_except (append_index_file (url +:+ LF)) Exception (mret ()).

(** The [while True] loop of [unique_path], at most [fuel] rounds. *)
Fixpoint unique_path_loop (fuel : nat) (dir base : string) (i : nat) : M string :=
  match fuel with
  | O => raise Unbounded
  | S fuel' =>
      let p := candidate dir base i in
      taken ← os_path_exists p;
      if taken : bool then unique_path_loop fuel' dir base (S i) else mret p
  end.

(** [unique_path(base)]; one more round than there are files is enough
    (see [unique_path_returns]). *)
Definition unique_path (base : string) : M string :=
  let base := sanitize base in
  self ← get_self;
  let path := os_path_join (out_dir (config self)) (base +:+ ".flac") in
  taken ← os_path_exists path;
  if taken : bool then
    w ← get_world;
    unique_path_loop (S (size (files w))) (out_dir (config self)) base 2
  else mret path.

Definition get_metadata : M Metadata :=
  md ← props_Get_Metadata;
  lift (normalize md).

Definition get_playback_status : M string :=
  v ← props_Get_PlaybackStatus;
  mret (py_str v).

(** The condition [self.current_path and self.current_started_at]. *)
Definition has_recording (self : Recorder) : option (string * Q) :=
  match current_path self, current_started_at self with
  | Some path, Some t =>
      if Py.truthy path && float_truthy t then Some (path, t) else None
  | _, _ => None
  end.

Definition _finalize : M unit :=
  self ← get_self;
  match proc self with
  | None => mret ()
  | Some p =>
      try_finally
        (try_except (send_signal_SIGINT p;; wait p) Exception (kill p))
        (assign (set_proc None));;
      '(kept, dur) ←
        (match has_recording self with
        | Some (path, t) =>
            now ← time_time;
            let dur := (now - t)%Q in
            if float_lt dur (inject_Z (min_seconds (config self))) then
              try_except (os_remove path) (only FileNotFoundError) (mret ());;
              mret (false, dur)
            else mret (true, dur)
        | None => mret (false, 0%Q)
        end : M (bool * Q));
      (if (kept : bool) && dedupe (config self)
            && Py.truthy (default "" (current_url self))
       then _append_index (default "" (current_url self))
       else mret ());;
      _write_status
        [("STATE", Text "idle");
         ("LAST_RESULT", Text (if kept : bool then "KEEP" else "DROP"));
         ("LAST_DURATION", Seconds dur);
         ("LAST_FILE", Text (default "" (current_path self)));
         ("LAST_SPOTIFY_URL", Text (default "" (current_url self)))];;
      assign (set_current_path None);;
      assign (set_current_started_at None);;
      assign (set_current_track_id None);;
      assign (set_current_url None)
  end.

(** The argument vector of the encoder. *)
Definition ffmpeg_cmd (cfg : Config) (md : Metadata) (out_path : string) : list string :=
  ["ffmpeg"; "-hide_banner"; "-loglevel"; "error";
   "-f"; "pulse"; "-i"; source cfg;
   "-acodec"; "flac";
   "-compression_level"; Py.str_int (comp_level cfg);
   "-metadata"; "ARTIST=" +:+ artist md;
   "-metadata"; "TITLE=" +:+ title md]
  ++ (if Py.truthy (album md) then ["-metadata"; "ALBUM=" +:+ album md] else [])
  ++ (if Py.truthy (url md) then ["-metadata"; "SPOTIFY_URL=" +:+ url md] else [])
  ++ (if Py.truthy (tracknumber md)
      then ["-metadata"; "TRACKNUMBER=" +:+ tracknumber md] else [])
  ++ (if Py.truthy (discnumber md)
      then ["-metadata"; "DISCNUMBER=" +:+ discnumber md] else [])
  ++ [out_path].

(** [_start(md)]; [os.makedirs] of the output directory has no effect on
    the regular files. *)
Definition _start (md : Metadata) : M unit :=
  self ← get_self;
  let url := url md in
  if dedupe (config self) && Py.truthy url && bool_decide (url ∈ seen_urls self) then
    _write_status
      [("STATE", Text "skipped");
       ("ARTIST", Text (Py.strip (artist md)));
       ("TITLE", Text (Py.strip (title md)));
       ("SPOTIFY_URL", Text url)];;
    assign (set_current_track_id (Some (trackid md)));;
    assign (set_current_url (Some url))
  else
    let name := Py.strip_chars " -" (artist md +:+ " - " +:+ title md) in
    out_path ← unique_path name;
    p ← Popen (ffmpeg_cmd (config self) md out_path);
    assign (set_proc (Some p));;
    assign (set_current_path (Some out_path));;
    now ← time_time;
    assign (set_current_started_at (Some now));;
    assign (set_current_track_id (Some (trackid md)));;
    assign (set_current_url (Some url));;
    _write_status
      [("STATE", Text "recording");
       ("ARTIST", Text (Py.strip (artist md)));
       ("TITLE", Text (Py.strip (title md)));
       ("FILE", Text out_path);
       ("STARTED_AT", Text (Py.str_int (int_of_float now)));
       ("SPOTIFY_URL", Text url)].

(** [md.get("title")] as a condition, [md] a dictionary of [get_metadata] or
    the empty one. *)
Definition has_title (md : option Metadata) : bool :=
  match md with
  | Some md => Py.truthy (title md)
  | None => false
  end.

Definition _ensure_started : M unit :=
  self ← get_self;
  if negb (bool_decide (playback_status self = Some "Playing")) || bool_decide (is_Some (proc self))
  then mret ()
  else
    md ← (if has_title (pending self) then mret (pending self)
          else md ← get_metadata;
               assign (set_pending (Some md));;
               mret (Some md));
    match md with
    | Some md => if Py.truthy (title md) then _start md else mret ()
    | None => mret ()
    end.

Definition on_properties_changed
    (interface : string) (changed : gmap string V) (invalidated : list string) : M unit :=
  if negb (bool_decide (interface = "org.mpris.MediaPlayer2.Player")) then mret ()
  else
    match changed !! "PlaybackStatus" with
    | Some v =>
        let status := py_str v in
        assign (set_playback_status (Some status));;
        if bool_decide (status ∈ ["Paused"; "Stopped"]) then _finalize
        else if bool_decide (status = "Playing") then _ensure_started
        else mret ()
    | None => mret ()
    end;;
    match changed !! "Metadata" with
    | Some _ =>
        md ← get_metadata;
        assign (set_pending (Some md));;
        self ← get_self;
        if negb (bool_decide (playback_status self = Some "Playing")) then mret ()
        else if negb (bool_decide (is_Some (proc self))) then _ensure_started
        else if Py.truthy (trackid md)
                && negb (bool_decide (Some (trackid md) = current_track_id self))
        then _finalize;; _start md
        else mret ()
    | None => mret ()
    end.

Definition prime : M unit :=
  status ← get_playback_status;
  assign (set_playback_status (Some status));;
  md ← get_metadata;
  assign (set_pending (Some md));;
  if bool_decide (status = "Playing") then _ensure_started else mret ().

Definition shutdown : M unit := _finalize.

(** [Recorder.__init__] after the attributes were assigned. *)
Definition __init__ : M unit :=
  self ← get_self;
  (if dedupe (config self) then _load_index else mret ());;
  _write_status [("STATE", Text "idle")].

End Methods.

(** The attributes [__init__] assigns first. *)
Definition new_Recorder (cfg : Config) : Recorder :=
  {| config := cfg; proc := None; current_path := None;
     current_started_at := None; current_track_id := None; current_url := None;
     playback_status := None; pending := None; seen_urls := ∅ |}.

(** ** Sessions

    The bus delivers one [PropertiesChanged] signal at a time; an exception
    that escapes the handler is reported by the bus binding and the loop goes
    on with the attributes as they were left.  Between two signals the
    encoder and other programs create and delete files, and a child may
    exit on its own: the recorder holds its [Popen] object and never polls
    it. *)

Inductive input (V : Type) :=
  | PropertiesChanged (interface : string) (changed : gmap string V)
      (invalidated : list string)
  | FilesChanged (fs : gset string)
  | ChildExited (p : nat).
Arguments PropertiesChanged {V} _ _ _.
Arguments FilesChanged {V} _.
Arguments ChildExited {V} _.

(** The child [p], when it runs, ends by itself. *)
Definition child_exits (p : nat) (w : World) : World :=
  set_children
    (alter (λ c, match state c with
                 | Running => {| argv := argv c; interrupted := interrupted c;
                                 state := Exited |}
                 | _ => c
                 end) p (children w)) w.

Section Sessions.
Context {V : Type} `{PyValue V} (env : Env V).

Definition deliver (s : Recorder * World) (i : input V) : Recorder * World :=
  match i with
  | PropertiesChanged interface changed invalidated =>
      let '(_, self, w) := on_properties_changed env interface changed invalidated s.1 s.2 in
      (self, w)
  | FilesChanged fs => (s.1, set_files fs s.2)
  | ChildExited p => (s.1, child_exits p s.2)
  end.

Definition run (s : Recorder * World) (inputs : list (input V)) : Recorder * World :=
  foldl deliver s inputs.

(** [main] up to the start of the loop: [Recorder(...)] and [prime()]. *)
Definition startup (cfg : Config) (w : World) : result () * Recorder * World :=
  (__init__ env;; prime env) (new_Recorder cfg) w.

(** [main]: when [prime] raises the process ends before the loop. *)
Definition session (cfg : Config) (w : World) (inputs : list (input V)) : Recorder * World :=
  match startup cfg w with
  | (Ok _, self, w') => run (self, w') inputs
  | (Raise _, self, w') => (self, w')
  end.

(** [n] requests of a path for the same base name, each returned path
    becoming a file before the next request. *)
Fixpoint request_paths (n : nat) (base : string) (self : Recorder) (w : World) : list string :=
  match n with
  | O => []
  | S n' =>
      match unique_path base self w with
      | (Ok p, self', w') =>
          p :: request_paths n' base self' (set_files ({[p]} ∪ files w') w')
      | (Raise _, _, _) => []
      end
  end.

End Sessions.

(** ** Vocabulary of the properties *)

(** A method keeps [I] when the attributes and the world satisfy it after
    the call, whether it returned or raised, whenever they did before. *)
Definition keeps {A : Type} (I : Recorder → World → Prop) (m : M A) : Prop :=
  ∀ self w, I self w → I (m self w).1.2 (m self w).2.

(** Some part of a recording context is set. *)
Definition context_set (self : Recorder) : Prop :=
  is_Some (current_path self) ∨ is_Some (current_started_at self)
  ∨ is_Some (current_track_id self) ∨ is_Some (current_url self).

(** The path and the start time are set exactly when a child process is
    supervised; the track id and the url are set together, and always when a
    child process is supervised. *)
Definition supervised (self : Recorder) : Prop :=
  (is_Some (current_path self) ↔ is_Some (proc self))
  ∧ (is_Some (current_started_at self) ↔ is_Some (proc self))
  ∧ (is_Some (current_track_id self) ↔ is_Some (current_url self))
  ∧ (is_Some (proc self) → is_Some (current_url self)).

(** The [TITLE=...] argument of a child's command line. *)
Definition title_tag (c : Child) : option string := argv c !! 15%nat.

(** The configuration is the one of [self0] and no url of [self0] was
    forgotten. *)
Definition extends (self0 : Recorder) (self : Recorder) (w : World) : Prop :=
  config self = config self0 ∧ seen_urls self0 ⊆ seen_urls self.

(** ** A concrete player and two sessions *)

Module Example.

Definition player : string := "org.mpris.MediaPlayer2.Player".
Definition url_a : string := "https://open.spotify.com/track/a".

(** The track that plays first. *)
Definition track_a : gmap string dbus_value :=
  {[ "mpris:trackid" := DString "/com/spotify/track/a";
     "xesam:title" := DString "Alpha";
     "xesam:url" := DString url_a;
     "xesam:trackNumber" := DInt 3;
     "xesam:discNumber" := DInt 0 ]}.

(** The next track as the player first announces it: an id, no title yet. *)
Definition track_b : gmap string dbus_value :=
  {[ "mpris:trackid" := DString "/com/spotify/track/b" ]}.

(** The player is paused at startup and answers [track_a] to the first six
    questions, [track_b] afterwards; the clock advances 100 seconds per
    question; files can be written, [ffmpeg] starts and stops in time. *)
Definition env : Env dbus_value := {|
  clock n := inject_Z (1000 + 100 * Z.of_nat n);
  player_metadata n := if (n <? 6)%nat then track_a else track_b;
  player_status n := DString "Paused";
  writable n := true;
  spawnable n := true;
  exits_in_time n := true;
|}.

Definition cfg (dedupe : bool) : Config :=
  {| out_dir := "/music"; source := "rec.monitor"; comp_level := 5;
     min_seconds := 30; dedupe := dedupe |}.

Definition empty_world : World :=
  {| files := ∅; index_file := None; status_file := None; children := [];
     tick := 0 |}.

(** The index file already lists [url_a]. *)
Definition indexed_world : World :=
  {| files := ∅; index_file := Some (url_a +:+ LF); status_file := None;
     children := []; tick := 0 |}.

Definition playing : input dbus_value :=
  PropertiesChanged player {[ "PlaybackStatus" := DString "Playing" ]} [].

Definition metadata_changed : input dbus_value :=
  PropertiesChanged player {[ "Metadata" := DString "a{sv}" ]} [].

(** What [get_metadata] makes of [track_a]. *)
Definition md_a : Metadata :=
  {| trackid := "/com/spotify/track/a"; artist := ""; title := "Alpha";
     album := ""; url := url_a; tracknumber := "3"; discnumber := "" |}.


(** A recording of [track_a] that started at the clock reading of question
    [4]. *)
Definition recording : Recorder :=
  {| config := cfg true; proc := Some 0%nat;
     current_path := Some "/music/Alpha.flac";
     current_started_at := Some (inject_Z 1400);
     current_track_id := Some "/com/spotify/track/a";
     current_url := Some url_a;
     playback_status := Some "Playing"; pending := Some md_a;
     seen_urls := ∅ |}.

Definition encoder_a : Child :=
  {| argv := ffmpeg_cmd (cfg true) md_a "/music/Alpha.flac";
     interrupted := false; state := Running |}.

(** The world while that recording runs: stopped at question [3] it lasted
    no time, stopped at question [7] it lasted 400 seconds. *)
Definition world_at (n : nat) (fs : gset string) : World :=
  {| files := fs; index_file := None; status_file := None;
     children := [encoder_a]; tick := n |}.

End Example.

(** ** Choosing the player *)

Definition MPRIS_PREFIX : string := "org.mpris.MediaPlayer2.".

(** [pick_mpris_player(bus, preferred)], [bus_names] being
    [bus.list_names()]. *)
Definition pick_mpris_player (bus_names : list string) (preferred : option string)
    : option string :=
  let names := filter (λ n, String.prefix MPRIS_PREFIX n = true) bus_names in
  match names with
  | [] => None
  | _ =>
      let found :=
        match preferred with
        | Some preferred =>
            if Py.truthy preferred then
              let preferred :=
                if String.prefix MPRIS_PREFIX preferred then preferred
                else MPRIS_PREFIX +:+ preferred in
              if bool_decide (preferred ∈ names) then Some preferred else None
            else None
        | None => None
        end in
      match found with
      | Some name => Some name
      | None => head (merge_sort (≤)%string names)
      end
  end.

(** ** More vocabulary *)

(** A child that runs is the supervised one.  (The supervised child may
    have ended by itself.) *)
Definition single_encoder (self : Recorder) (w : World) : Prop :=
  ∀ i c, children w !! i = Some c → state c = Running → proc self = Some i.

(** While the last status seen is [Paused] or [Stopped], or none was seen,
    no child is supervised. *)
Definition idle_unless_playing (self : Recorder) : Prop :=
  is_Some (proc self) →
  ∃ s, playback_status self = Some s ∧ s ≠ "Paused" ∧ s ≠ "Stopped".


(** A child after [SIGINT] and [wait]: exited in time, or killed. *)
Definition stop_child (in_time : bool) (c : Child) : Child :=
  {| argv := argv c; interrupted := true;
     state := if in_time then Exited else Killed |}.

(** With deduplication off: the in-memory set and the index file are the
    ones given. *)
Definition index_untouched (seen : gset string) (index : option string)
    (self : Recorder) (w : World) : Prop :=
  dedupe (config self) = false ∧ seen_urls self = seen ∧ index_file w = index.

(** Since the attributes were [self0] and the world [w0]: no file was
    created, only the output path of [self0] may have been removed, and the
    output path now is that one or was not a file then. *)
Definition deletes_only_current (self0 : Recorder) (w0 : World)
    (self : Recorder) (w : World) : Prop :=
  files w ⊆ files w0
  ∧ (∀ q, q ∈ files w0 → q ∉ files w → current_path self0 = Some q)
  ∧ (∀ p, current_path self = Some p → current_path self0 = Some p ∨ p ∉ files w0).

(** One encoder at most, and none while the player is paused or stopped. *)
Definition well_supervised (self : Recorder) (w : World) : Prop :=
  single_encoder self w ∧ idle_unless_playing self.

(** A player that plays [Example.track_a] from the start, with an encoder
    that does not stop within the five seconds. *)
Definition playing_env : Env dbus_value := {|
  clock n := inject_Z (1000 + 100 * Z.of_nat n);
  player_metadata n := Example.track_a;
  player_status n := DString "Playing";
  writable n := true;
  spawnable n := true;
  exits_in_time n := false;
|}.

(** The environment of [Example.env] on a disk where no file can be opened
    for writing. *)
Definition readonly_env : Env dbus_value := {|
  clock := clock Example.env;
  player_metadata := player_metadata Example.env;
  player_status := player_status Example.env;
  writable n := false;
  spawnable n := true;
  exits_in_time n := true;
|}.



(** * Properties *)

Local Set Warnings "-clear-no-such-hyp".

(** ** Sanity checks of the string helpers *)

Example sanitize_ex :
  sanitize "  AC/DC -  Back:in?Black  " = "AC_DC - Back_in_Black"
  ∧ sanitize " // " = "_" ∧ sanitize "   " = "unknown".
Proof. vm_compute. done. Qed.

Example int_of_str_ex :
  Py.int_of_str " 12 " = Some 12 ∧ Py.int_of_str "-3" = Some (-3)
  ∧ Py.int_of_str "1_000" = Some 1000 ∧ Py.int_of_str "1__0" = None
  ∧ Py.int_of_str "seven" = None ∧ Py.int_of_str "" = None.
Proof. vm_compute. done. Qed.

Example to_int_str_ex :
  to_int_str (Some (DInt 7)) = "7" ∧ to_int_str (Some (DString "07")) = "7"
  ∧ to_int_str (Some (DInt 0)) = "" ∧ to_int_str (Some (DInt (-2))) = ""
  ∧ to_int_str (Some (DString "x")) = "" ∧ to_int_str (None : option dbus_value) = "".
Proof. vm_compute. done. Qed.

(** ** Proof tools *)

Arguments candidate : simpl never.
Arguments sanitize : simpl never.
Arguments float_lt : simpl never.
Arguments has_recording : simpl never.

(** Runs the monadic glue of a goal. *)
Ltac mrun :=
  repeat (progress (unfold mbind, M_bind, mret, M_ret, get_self, get_world,
                      assign, effect, raise, lift; cbn beta iota zeta)).

(** ** Output paths *)

Lemma string_app_length (s t : string) :
  String.length (s +:+ t) = (String.length s + String.length t)%nat.
Proof. induction s as [|c s IH]; simpl; [done | by rewrite IH]. Qed.

Lemma string_app_assoc (s t u : string) : (s +:+ t) +:+ u = s +:+ t +:+ u.
Proof.
  induction s as [|c s IH]; [done|].
  change (String c ((s +:+ t) +:+ u) = String c (s +:+ t +:+ u)). by f_equal.
Qed.

Lemma string_app_inj_r (t s1 s2 : string) : s1 +:+ t = s2 +:+ t → s1 = s2.
Proof.
  intros Heq.
  assert (String.length s1 = String.length s2) as Hlen.
  { apply (f_equal String.length) in Heq. rewrite !string_app_length in Heq. lia. }
  revert s2 Heq Hlen.
  induction s1 as [|c s1 IH]; intros [|d s2] Heq Hlen; simpl in *; try done.
  injection Heq as -> Heq. f_equal. apply IH; [done | lia].
Qed.

Lemma os_path_join_suffix (dir base : string) :
  ∃ pre, ∀ rest, os_path_join dir (base +:+ " " +:+ rest) = pre +:+ base +:+ " " +:+ rest.
Proof.
  unfold os_path_join. destruct base as [|c base]; simpl.
  - destruct (reverse (Py.chars dir)) as [|d ?].
    + by exists "".
    + case_bool_decide; [exists dir | exists (dir +:+ "/")]; intros rest; [done|].
      by rewrite string_app_assoc.
  - case_bool_decide.
    + by exists "".
    + destruct (reverse (Py.chars dir)) as [|d ?].
      * by exists "".
      * case_bool_decide; [exists dir | exists (dir +:+ "/")]; intros rest; [done|].
        by rewrite string_app_assoc.
Qed.

Lemma candidate_inj (dir base : string) : Inj (=) (=) (candidate dir base).
Proof.
  intros i j. unfold candidate.
  destruct (os_path_join_suffix dir base) as [pre Hpre].
  change (base +:+ " (" +:+ ?x) with (base +:+ " " +:+ "(" +:+ x).
  rewrite !Hpre. intros Heq.
  do 2 apply (inj (String.append _)) in Heq.
  simpl in Heq. injection Heq as Heq.
  apply (string_app_inj_r ").flac" (Py.str_int (Z.of_nat i)) (Py.str_int (Z.of_nat j)))
    in Heq.
  unfold Py.str_int in Heq.
  apply (inj pretty) in Heq. lia.
Qed.

Lemma unique_path_loop_spec (fuel : nat) (dir base : string) (i : nat)
    (self : Recorder) (w : World) :
  (∃ k, unique_path_loop fuel dir base i self w = (Ok (candidate dir base k), self, w)
        ∧ (i ≤ k < i + fuel)%nat
        ∧ (candidate dir base k ∉ files w)
        ∧ (∀ j, (i ≤ j < k)%nat → candidate dir base j ∈ files w))
  ∨ (unique_path_loop fuel dir base i self w = (Raise Unbounded, self, w)
     ∧ (∀ j, (i ≤ j < i + fuel)%nat → candidate dir base j ∈ files w)).
Proof.
  revert i. induction fuel as [|fuel IH]; intros i.
  - right. split; [done | intros j; lia].
  - cbn [unique_path_loop]. unfold os_path_exists. mrun.
    case_bool_decide as Hin.
    + destruct (IH (S i)) as [(k & Hk & Hr & Hfree & Hbelow) | [Hk Hall]].
      * left. exists k. rewrite Hk.
        split; [done|]. split; [lia|]. split; [done|].
        intros j Hj. destruct (decide (j = i)) as [->|]; [done|]. apply Hbelow. lia.
      * right. rewrite Hk. split; [done|].
        intros j Hj. destruct (decide (j = i)) as [->|]; [done|]. apply Hall. lia.
    + left. exists i.
      split; [done|]. split; [lia|]. split; [done | intros j; lia].
Qed.

(** More candidates than files cannot all be files. *)
Lemma candidates_exhaust (dir base : string) (i n : nat) (fs : gset string) :
  (∀ j, (i ≤ j < i + n)%nat → candidate dir base j ∈ fs) → (n ≤ size fs)%nat.
Proof.
  intros Hall.
  set (l := candidate dir base <$> seq i n).
  assert (NoDup l) as Hnd.
  { apply (NoDup_fmap_2 _ (Inj0 := candidate_inj dir base)), NoDup_seq. }
  assert (list_to_set l ⊆ fs) as Hsub.
  { intros p Hp. apply elem_of_list_to_set in Hp.
    apply list_elem_of_fmap in Hp as (j & -> & Hj).
    apply elem_of_seq in Hj. apply Hall. lia. }
  apply subseteq_size in Hsub.
  rewrite size_list_to_set in Hsub by done.
  unfold l in Hsub. by rewrite length_fmap, length_seq in Hsub.
Qed.

Lemma unique_path_returns (base : string) (self : Recorder) (w : World) :
  ∃ p, unique_path base self w = (Ok p, self, w) ∧ (p ∉ files w)
    ∧ let dir := out_dir (config self) in
      let first := os_path_join dir (sanitize base +:+ ".flac") in
      (p = first
       ∨ first ∈ files w
         ∧ ∃ i, (2 ≤ i)%nat ∧ p = candidate dir (sanitize base) i
                ∧ ∀ j, (2 ≤ j < i)%nat → candidate dir (sanitize base) j ∈ files w).
Proof.
  unfold unique_path, os_path_exists. mrun.
  case_bool_decide as Hin.
  - destruct (unique_path_loop_spec (S (size (files w))) (out_dir (config self))
                (sanitize base) 2 self w)
      as [(k & Hk & Hr & Hfree & Hbelow) | [_ Hall]].
    + exists (candidate (out_dir (config self)) (sanitize base) k).
      split; [done|]. split; [done|]. right. split; [done|].
      exists k. split; [lia|]. by split.
    + apply candidates_exhaust in Hall. lia.
  - eexists. split; [done|]. split; [done | by left].
Qed.

Lemma request_paths_spec (n : nat) (base : string) (self : Recorder) (w : World) :
  length (request_paths n base self w) = n
  ∧ NoDup (request_paths n base self w)
  ∧ (∀ p, p ∈ request_paths n base self w → p ∉ files w).
Proof.
  revert w. induction n as [|n IH]; intros w; cbn [request_paths].
  - split; [done|]. split; [constructor | intros p Hp; by apply elem_of_nil in Hp].
  - destruct (unique_path_returns base self w) as (p & -> & Hfree & _).
    destruct (IH (set_files ({[p]} ∪ files w) w)) as (Hlen & Hnd & Hout).
    cbn [files set_files] in Hout.
    split; [by rewrite length_cons, Hlen|]. split.
    + constructor; [|done]. intros Hp. apply Hout in Hp.
      apply Hp, elem_of_union_l. by apply elem_of_singleton.
    + intros q Hq. apply elem_of_cons in Hq as [->|Hq]; [done|].
      apply Hout in Hq. intros Hin. by apply Hq, elem_of_union_r.
Qed.

(** C6: [unique_path] always returns, and returns a path that is not an
    existing file: the plain [<base>.flac] when it is free, otherwise
    [<base> (i).flac] for the first counter [i = 2, 3, ...] that is free.
    Asking [n] times for the same base name, each returned path becoming a
    file, gives [n] pairwise distinct paths, none of them a file that was
    there before. *)
Theorem unique_path_never_collides (base : string) (self : Recorder) (w : World) :
  (∃ p, unique_path base self w = (Ok p, self, w) ∧ (p ∉ files w)
     ∧ let dir := out_dir (config self) in
       let first := os_path_join dir (sanitize base +:+ ".flac") in
       (p = first
        ∨ first ∈ files w
          ∧ ∃ i, (2 ≤ i)%nat ∧ p = candidate dir (sanitize base) i
                 ∧ ∀ j, (2 ≤ j < i)%nat → candidate dir (sanitize base) j ∈ files w))
  ∧ ∀ n, length (request_paths n base self w) = n
         ∧ NoDup (request_paths n base self w)
         ∧ (∀ p, p ∈ request_paths n base self w → p ∉ files w).
Proof.
  split; [apply unique_path_returns | intros n; apply request_paths_spec].
Qed.

(** ** The metadata normalizer *)

Section NormalizerProperties.
Context {V : Type} `{PyValue V}.






End NormalizerProperties.

(** ** Persistence and finalization *)

Lemma float_lt_spec (a b : Q) : float_lt a b = true ↔ (a < b)%Q.
Proof.
  unfold float_lt. rewrite negb_true_iff, <- not_true_iff_false, Qle_bool_iff.
  split; [apply Qnot_le_lt | apply Qlt_not_le].
Qed.

Lemma float_lt_false (a b : Q) : float_lt a b = false ↔ (b <= a)%Q.
Proof. unfold float_lt. by rewrite negb_false_iff, Qle_bool_iff. Qed.

Lemma truthy_spec (s : string) : Py.truthy s = true ↔ s ≠ "".
Proof. by destruct s. Qed.

Ltac munfold :=
  unfold _finalize, _start, _ensure_started, _append_index, _write_status, _load_index,
    get_metadata, get_playback_status, props_Get_Metadata, props_Get_PlaybackStatus,
    write_status_file, append_index_file, read_index_file, os_remove, os_path_exists,
    time_time, Popen, wait, kill, send_signal_SIGINT, update_child, ask,
    try_except, try_finally, Exception, only in *.

(** Runs a method to the end, one case per path through it. *)
Ltac mcases := munfold; mrun; repeat (case_match; simplify_eq/=; mrun).

Section MethodProperties.
Context {V : Type} `{PyValue V} (env : Env V).

Lemma _write_status_run (fields : list (string * field)) (self : Recorder) (w : World) :
  _write_status env fields self w
  = (Ok (), self,
     if writable env (tick w)
     then set_status_file (Some fields) (set_tick (S (tick w)) w)
     else set_tick (S (tick w)) w).
Proof. by mcases. Qed.

Lemma _append_index_run (url : string) (self : Recorder) (w : World) :
  url ≠ "" →
  _append_index env url self w
  = (Ok (), set_seen_urls ({[url]} ∪ seen_urls self) self,
     if writable env (tick w)
     then set_index_file (Some (default "" (index_file w) +:+ url +:+ LF))
            (set_tick (S (tick w)) w)
     else set_tick (S (tick w)) w).
Proof. intros Hurl%truthy_spec. unfold _append_index. rewrite Hurl. by mcases. Qed.

Lemma _finalize_idle (self : Recorder) (w : World) :
  proc self = None → _finalize env self w = (Ok (), self, w).
Proof. intros Hproc. unfold _finalize. mrun. by rewrite Hproc. Qed.

Lemma _finalize_returns (self : Recorder) (w : World) :
  ∃ self' w', _finalize env self w = (Ok (), self', w') ∧ proc self' = None.
Proof. mcases; eauto. Qed.


(** C8 (as amended): recording a non-empty URL into the dedupe index adds it
    to the in-memory set and returns normally whether or not the index file
    can be written (a failed write leaves the file as it was), and a status
    write returns normally, with the attributes untouched, whether or not
    the status file can be written. *)
Theorem persistence_failures_are_swallowed
    (url : string) (fields : list (string * field)) (self : Recorder) (w : World)
    (Hurl : url ≠ "") :
  (∃ self' w',
     _append_index env url self w = (Ok (), self', w')
     ∧ url ∈ seen_urls self'
     ∧ seen_urls self' = {[url]} ∪ seen_urls self
     ∧ self' = set_seen_urls (seen_urls self') self
     ∧ index_file w'
       = (if writable env (tick w)
          then Some (default "" (index_file w) +:+ url +:+ LF)
          else index_file w))
  ∧ (∃ w',
       _write_status env fields self w = (Ok (), self, w')
       ∧ status_file w'
         = (if writable env (tick w) then Some fields else status_file w)
       ∧ files w' = files w ∧ index_file w' = index_file w
       ∧ children w' = children w).
Proof.
  split.
  - rewrite _append_index_run by done. do 2 eexists. split; [done|].
    cbn [seen_urls set_seen_urls]. split; [set_solver|]. split; [done|].
    split; [done|]. by destruct (writable env (tick w)).
  - rewrite _write_status_run. eexists. split; [done|].
    by destruct (writable env (tick w)).
Qed.

(** C5: without a child process [_finalize] changes nothing: no attribute,
    no file, no index entry, no status write, no question to the
    environment.  After any [_finalize] there is no child process, so
    finalizing twice in a row is finalizing once. *)
Theorem finalize_idempotent (self : Recorder) (w : World) :
  (proc self = None → _finalize env self w = (Ok (), self, w))
  ∧ (_finalize env;; _finalize env) self w = _finalize env self w.
Proof.
  split; [apply _finalize_idle|].
  destruct (_finalize_returns self w) as (self' & w' & Hrun & Hproc).
  unfold mbind at 1, M_bind at 1. rewrite Hrun. by apply _finalize_idle.
Qed.


Lemma has_recording_inv (self : Recorder) (path : string) (t : Q) :
  has_recording self = Some (path, t) →
  current_path self = Some path ∧ current_started_at self = Some t
  ∧ path ≠ "" ∧ ¬ (t == 0)%Q.
Proof.
  unfold has_recording, float_truthy. intros Hrec.
  repeat case_match; simplify_eq.
  destruct (andb_prop _ _ ltac:(eassumption)) as [Hp Ht].
  apply truthy_spec in Hp. apply negb_true_iff, not_true_iff_false in Ht.
  rewrite Qeq_bool_iff in Ht. done.
Qed.

(** C3: finalizing an active recording (a child process, and the path and
    start time the method tests for) returns normally and leaves the
    recorder idle, with no child and no recording context.  The duration is
    the clock at the stop minus the start time.  At or above the threshold no
    file is removed and the status written is [KEEP]; strictly below it the
    output file is gone, the status written is [DROP], and the dedupe index
    is untouched. *)
Theorem finalize_keeps_or_drops
    (self : Recorder) (w : World) (p : nat) (path : string) (t : Q)
    (Hproc : proc self = Some p)
    (Hrec : has_recording self = Some (path, t)) :
  let dur := (clock env (S (tick w)) - t)%Q in
  let threshold := inject_Z (min_seconds (config self)) in
  let status outcome :=
    [("STATE", Text "idle"); ("LAST_RESULT", Text outcome);
     ("LAST_DURATION", Seconds dur); ("LAST_FILE", Text path);
     ("LAST_SPOTIFY_URL", Text (default "" (current_url self)))] in
  ∃ self' w',
    _finalize env self w = (Ok (), self', w')
    ∧ proc self' = None ∧ current_path self' = None
    ∧ current_started_at self' = None ∧ current_track_id self' = None
    ∧ current_url self' = None
    ∧ ((threshold <= dur)%Q →
         files w' = files w
         ∧ status_file w'
           = (if writable env (pred (tick w')) then Some (status "KEEP")
              else status_file w))
    ∧ ((dur < threshold)%Q →
         files w' = files w ∖ {[path]} ∧ (path ∉ files w')
         ∧ status_file w'
           = (if writable env (pred (tick w')) then Some (status "DROP")
              else status_file w)
         ∧ seen_urls self' = seen_urls self ∧ index_file w' = index_file w).
Proof.
  intros dur threshold status.
  destruct (has_recording_inv _ _ _ Hrec) as (Hpath & _ & _ & _).
  unfold _finalize. mrun. rewrite Hproc, Hrec.
  mcases.
  all: do 2 eexists; split; [done|]; cbn.
  all: rewrite ?Hpath; subst dur threshold status; cbn.
  all: repeat match goal with
         | Hw : writable _ _ = _ |- _ => rewrite Hw; clear Hw
         | Hlt : float_lt _ _ = true |- _ => apply float_lt_spec in Hlt
         | Hlt : float_lt _ _ = false |- _ => apply float_lt_false in Hlt
         | Hin : bool_decide _ = true |- _ => apply bool_decide_eq_true in Hin
         | Hin : bool_decide _ = false |- _ => apply bool_decide_eq_false in Hin
         end.
  all: do 5 (split; [done|]).
  all: split; intros Hcmp;
         try (exfalso; eapply Qlt_not_le; eassumption).
  all: repeat split; try done; set_solver.
Qed.

(** C10: finalizing a recording that ran shorter than the threshold and whose
    output file does not exist returns normally: [os.remove] raises
    [FileNotFoundError] there, the method catches it, writes [DROP] with the
    duration it computed, and clears the recording context. *)
Theorem finalize_drop_missing_file
    (self : Recorder) (w : World) (p : nat) (path : string) (t : Q)
    (dur := (clock env (S (tick w)) - t)%Q)
    (Hproc : proc self = Some p)
    (Hrec : has_recording self = Some (path, t))
    (Hshort : (dur < inject_Z (min_seconds (config self)))%Q)
    (Hmissing : path ∉ files w) :
  (∀ self1 w1, files w1 = files w →
     os_remove path self1 w1 = (Raise FileNotFoundError, self1, w1))
  ∧ ∃ self' w',
      _finalize env self w = (Ok (), self', w')
      ∧ proc self' = None ∧ current_path self' = None
      ∧ current_started_at self' = None ∧ current_track_id self' = None
      ∧ current_url self' = None
      ∧ seen_urls self' = seen_urls self
      ∧ files w' = files w ∧ index_file w' = index_file w
      ∧ status_file w'
        = (if writable env (S (S (tick w)))
           then Some [("STATE", Text "idle"); ("LAST_RESULT", Text "DROP");
                      ("LAST_DURATION", Seconds dur); ("LAST_FILE", Text path);
                      ("LAST_SPOTIFY_URL", Text (default "" (current_url self)))]
           else status_file w).
Proof.
  split.
  { intros self1 w1 Hfiles. unfold os_remove. mrun.
    rewrite Hfiles. by rewrite bool_decide_eq_false_2. }
  destruct (has_recording_inv _ _ _ Hrec) as (Hpath & _ & _ & _).
  apply float_lt_spec in Hshort. subst dur.
  unfold _finalize. mrun. rewrite Hproc, Hrec.
  mcases; try congruence.
  all: repeat match goal with
         | Hin : bool_decide _ = true |- _ => apply bool_decide_eq_true in Hin
         end; try done.
  all: do 2 eexists; split; [done|]; cbn.
  all: rewrite ?Hpath; cbn [default].
  all: repeat match goal with
         | Hw : writable _ _ = _ |- _ => rewrite Hw; clear Hw
         end; done.
Qed.


(** *** Starting *)

Lemma _start_skip (md : Metadata) (self : Recorder) (w : World) :
  dedupe (config self) = true → url md ≠ "" → url md ∈ seen_urls self →
  _start env md self w
  = (Ok (),
     set_current_url (Some (url md)) (set_current_track_id (Some (trackid md)) self),
     let fields := [("STATE", Text "skipped");
                    ("ARTIST", Text (Py.strip (artist md)));
                    ("TITLE", Text (Py.strip (title md)));
                    ("SPOTIFY_URL", Text (url md))] in
     if writable env (tick w)
     then set_status_file (Some fields) (set_tick (S (tick w)) w)
     else set_tick (S (tick w)) w).
Proof.
  intros Hdedupe Hurl%truthy_spec Hseen. unfold _start. mrun.
  rewrite Hdedupe, Hurl, bool_decide_eq_true_2 by done. cbn [andb].
  rewrite _write_status_run. by mrun.
Qed.

Lemma _start_record (md : Metadata) (self : Recorder) (w : World) :
  dedupe (config self) && Py.truthy (url md) && bool_decide (url md ∈ seen_urls self)
    = false →
  ∃ out_path,
    unique_path (Py.strip_chars " -" (artist md +:+ " - " +:+ title md)) self w
      = (Ok out_path, self, w)
    ∧ (out_path ∉ files w)
    ∧ _start env md self w
      = if spawnable env (tick w) then
          let now := clock env (S (tick w)) in
          let fields := [("STATE", Text "recording");
                         ("ARTIST", Text (Py.strip (artist md)));
                         ("TITLE", Text (Py.strip (title md)));
                         ("FILE", Text out_path);
                         ("STARTED_AT", Text (Py.str_int (int_of_float now)));
                         ("SPOTIFY_URL", Text (url md))] in
          let w1 :=
            set_tick (S (S (S (tick w))))
              (set_children
                 (children w ++ [{| argv := ffmpeg_cmd (config self) md out_path;
                                    interrupted := false; state := Running |}])
                 w) in
          (Ok (),
           set_current_url (Some (url md))
             (set_current_track_id (Some (trackid md))
                (set_current_started_at (Some now)
                   (set_current_path (Some out_path)
                      (set_proc (Some (length (children w))) self)))),
           if writable env (S (S (tick w)))
           then set_status_file (Some fields) w1 else w1)
        else (Raise OSError, self, set_tick (S (tick w)) w).
Proof.
  intros Hcond.
  destruct (unique_path_returns
              (Py.strip_chars " -" (artist md +:+ " - " +:+ title md)) self w)
    as (out_path & Hpath & Hfree & _).
  exists out_path. split; [done|]. split; [done|].
  unfold _start. mrun. rewrite Hcond, Hpath. mrun.
  mcases; done.
Qed.


(** *** Invariants along a method *)

Lemma keeps_ret {A} I (a : A) : keeps I (mret a).
Proof. by intros self w. Qed.

Lemma keeps_bind {A B} I (m : M A) (f : A → M B) :
  keeps I m → (∀ a, keeps I (f a)) → keeps I (m ≫= f).
Proof.
  intros Hm Hf self w HI. specialize (Hm self w HI).
  unfold mbind, M_bind. destruct (m self w) as [[[a|e] self'] w']; [|done].
  by apply Hf.
Qed.

Lemma keeps_try_except {A} I (body handler : M A) (handled : exn → bool) :
  keeps I body → keeps I handler → keeps I (try_except body handled handler).
Proof.
  intros Hb Hh self w HI. specialize (Hb self w HI). unfold try_except.
  destruct (body self w) as [[[a|e] self'] w']; [done|].
  destruct (handled e); [by apply Hh | done].
Qed.

Lemma keeps_try_finally {A} I (body : M A) (final : M ()) :
  keeps I body → keeps I final → keeps I (try_finally body final).
Proof.
  intros Hb Hf self w HI. specialize (Hb self w HI). unfold try_finally.
  destruct (body self w) as [[r self'] w']. specialize (Hf self' w' Hb).
  by destruct (final self' w') as [[[a|e] self''] w''].
Qed.

Lemma keeps_assign I (f : Recorder → Recorder) :
  (∀ self w, I self w → I (f self) w) → keeps I (assign f).
Proof. intros Hf self w HI. by apply Hf. Qed.

Lemma keeps_effect I (f : World → World) :
  (∀ self w, I self w → I self (f w)) → keeps I (effect f).
Proof. intros Hf self w HI. by apply Hf. Qed.

Lemma keeps_pure {A} I (m : M A) :
  (∀ self w, (m self w).1.2 = self ∧ (m self w).2 = w) → keeps I m.
Proof. intros Hm self w HI. by destruct (Hm self w) as [-> ->]. Qed.

Lemma keeps_unique_path I (base : string) : keeps I (unique_path base).
Proof.
  apply keeps_pure. intros self w.
  by destruct (unique_path_returns base self w) as (p & -> & _).
Qed.

End MethodProperties.

Section SessionProperties.
Context {V : Type} `{PyValue V} (env : Env V).

Lemma keeps_blind {A} I (m : M A) :
  (∀ self w w', I self w → I self w') → (∀ self w, (m self w).1.2 = self) →
  keeps I m.
Proof. intros Hblind Hm self w HI. rewrite Hm. by eapply Hblind. Qed.

Ltac head_of t := lazymatch t with ?f _ => head_of f | _ => t end.

(** Walks through a method along its binds, branches and handlers; [known]
    closes the calls whose invariance is a lemma, [leaf] the assignments. *)
Ltac keeps_walk blind known leaf :=
  repeat first
    [ known
    | lazymatch goal with
      | |- keeps _ (mret _) => apply keeps_ret
      | |- keeps _ (_ ≫= _) => apply keeps_bind; [|intros ?]
      | |- keeps _ (try_except _ _ _) => apply keeps_try_except
      | |- keeps _ (try_finally _ _) => apply keeps_try_finally
      | |- keeps _ (assign _) => apply keeps_assign; leaf
      | |- keeps _ (effect _) => apply (keeps_blind _ _ blind); done
      | |- keeps _ (ask _ _) => apply (keeps_blind _ _ blind); done
      | |- keeps _ (raise _) => apply (keeps_blind _ _ blind); done
      | |- keeps _ (lift _) => apply (keeps_blind _ _ blind); done
      | |- keeps _ get_self => apply (keeps_blind _ _ blind); done
      | |- keeps _ get_world => apply (keeps_blind _ _ blind); done
      | |- keeps _ (unique_path _) => apply keeps_unique_path
      | |- keeps _ (match ?x with _ => _ end) => destruct x
      | |- keeps _ ?m => let h := head_of m in unfold h
      end ].

(** *** Urls are never forgotten *)

Lemma extends_blind self0 self w w' : extends self0 self w → extends self0 self w'.
Proof. done. Qed.

Lemma extends_refl self w : extends self self w.
Proof. by split. Qed.

Lemma on_properties_changed_extends self0 interface changed invalidated :
  keeps (extends self0) (on_properties_changed env interface changed invalidated).
Proof.
  keeps_walk (extends_blind self0) fail
    ltac:(intros ? ? [? ?]; split; cbn; [done | set_solver]).
Qed.

Lemma run_extends (inputs : list (input V)) (self : Recorder) (w : World) :
  extends self (run env (self, w) inputs).1 (run env (self, w) inputs).2.
Proof.
  assert (∀ s, extends self s.1 s.2 →
               extends self (run env s inputs).1 (run env s inputs).2) as Hgen.
  { induction inputs as [|i inputs IH]; intros s Hs; [done|].
    cbn [run foldl]. apply IH. destruct i as [interface changed invalidated|fs|p].
    - pose proof (on_properties_changed_extends self interface changed invalidated
                    s.1 s.2 Hs) as Hk.
      cbn [deliver].
      by destruct (on_properties_changed env interface changed invalidated s.1 s.2)
        as [[r self'] w'].
    - done.
    - done. }
  apply (Hgen (self, w)), extends_refl.
Qed.

(** *** Supervision *)

Lemma _finalize_clears (self : Recorder) (w : World) (p : nat) :
  proc self = Some p →
  ∃ self' w',
    _finalize env self w = (Ok (), self', w')
    ∧ proc self' = None ∧ current_path self' = None
    ∧ current_started_at self' = None ∧ current_track_id self' = None
    ∧ current_url self' = None.
Proof.
  intros Hproc. unfold _finalize. mrun. rewrite Hproc.
  mcases; do 2 eexists; (split; [done|]); cbn; done.
Qed.

Lemma supervised_idle (self : Recorder) :
  proc self = None → current_path self = None → current_started_at self = None →
  current_track_id self = None → current_url self = None → supervised self.
Proof.
  intros Hp Hpath Hst Htr Hurl. unfold supervised.
  rewrite Hp, Hpath, Hst, Htr, Hurl. by repeat split; intros [? [=]].
Qed.

Lemma _finalize_supervised : keeps (λ self _, supervised self) (_finalize env).
Proof.
  intros self w HI. destruct (proc self) as [p|] eqn:Hproc.
  - destruct (_finalize_clears self w p Hproc) as (self' & w' & -> & Hcleared).
    cbn. destruct Hcleared as (? & ? & ? & ? & ?). by apply supervised_idle.
  - by rewrite _finalize_idle.
Qed.

Lemma _start_supervised (md : Metadata) :
  keeps (λ self _, supervised self) (_start env md).
Proof.
  intros self w (Hpath & Hst & Htr & Hurl).
  destruct (dedupe (config self) && Py.truthy (url md)
            && bool_decide (url md ∈ seen_urls self)) eqn:Hcond.
  - apply andb_prop in Hcond as [Hcond Hseen]. apply andb_prop in Hcond as [Hd Hu].
    apply bool_decide_eq_true in Hseen. apply truthy_spec in Hu.
    rewrite _start_skip by done. cbn.
    unfold supervised. cbn. repeat split; eauto; tauto.
  - destruct (_start_record env md self w Hcond) as (out_path & _ & _ & ->).
    destruct (spawnable env (tick w)); cbn; [|done].
    unfold supervised. cbn. repeat split; eauto.
Qed.

Lemma on_properties_changed_supervised interface changed invalidated :
  keeps (λ self _, supervised self)
    (on_properties_changed env interface changed invalidated).
Proof.
  keeps_walk (λ (self : Recorder) (w w' : World) (HI : supervised self), HI)
    ltac:(first [apply _finalize_supervised | apply _start_supervised])
    ltac:(by intros ? ? ?).
Qed.

Lemma startup_supervised (cfg : Config) (w : World) :
  supervised (startup env cfg w).1.2.
Proof.
  assert (keeps (λ self _, supervised self) (__init__ env;; prime env)) as Hk.
  { keeps_walk (λ (self : Recorder) (w w' : World) (HI : supervised self), HI)
      ltac:(first [apply _finalize_supervised | apply _start_supervised])
      ltac:(by intros ? ? ?). }
  apply Hk. by apply supervised_idle.
Qed.

Lemma run_supervised (inputs : list (input V)) (s : Recorder * World) :
  supervised s.1 → supervised (run env s inputs).1.
Proof.
  revert s. induction inputs as [|i inputs IH]; intros s Hs; [done|].
  cbn [run foldl]. apply IH. destruct i as [interface changed invalidated|fs|p].
  - pose proof (on_properties_changed_supervised interface changed invalidated
                  s.1 s.2 Hs) as Hk.
    cbn [deliver].
    by destruct (on_properties_changed env interface changed invalidated s.1 s.2)
      as [[r self'] w'].
  - done.
  - done.
Qed.


(** *** A supervised child has a recording to finalize *)

Lemma string_app_nonempty (s t : string) : t ≠ "" → s +:+ t ≠ "".
Proof. intros Ht. by destruct s. Qed.

Lemma os_path_join_nonempty (a b : string) : b ≠ "" → os_path_join a b ≠ "".
Proof.
  intros Hb. unfold os_path_join. destruct (starts_with_slash b); [done|].
  destruct (reverse (Py.chars a)) as [|c ?]; [done|].
  case_bool_decide; apply string_app_nonempty; [done|].
  by apply string_app_nonempty.
Qed.

Lemma unique_path_nonempty (base out_path : string) (self : Recorder) (w : World) :
  unique_path base self w = (Ok out_path, self, w) → out_path ≠ "".
Proof.
  intros Hrun.
  destruct (unique_path_returns base self w) as (p & Hp & _ & Hshape).
  rewrite Hrun in Hp. injection Hp as <-. cbn zeta in Hshape.
  destruct Hshape as [-> | (_ & i & _ & -> & _)].
  - apply os_path_join_nonempty, string_app_nonempty. done.
  - apply os_path_join_nonempty, string_app_nonempty. done.
Qed.

Lemma _start_has_recording (Hclock : ∀ n, ¬ (clock env n == 0)%Q) (md : Metadata) :
  keeps (λ self _, is_Some (proc self) → is_Some (has_recording self))
    (_start env md).
Proof.
  intros self w HI.
  destruct (dedupe (config self) && Py.truthy (url md)
            && bool_decide (url md ∈ seen_urls self)) eqn:Hcond.
  - apply andb_prop in Hcond as [Hcond Hseen]. apply andb_prop in Hcond as [Hd Hu].
    apply bool_decide_eq_true in Hseen. apply truthy_spec in Hu.
    by rewrite _start_skip.
  - destruct (_start_record env md self w Hcond) as (out_path & Hpath & _ & ->).
    apply unique_path_nonempty, truthy_spec in Hpath.
    destruct (spawnable env (tick w)); cbn; [|done].
    intros _. unfold has_recording, float_truthy. cbn. rewrite Hpath.
    specialize (Hclock (S (tick w))). rewrite <- Qeq_bool_iff in Hclock.
    apply not_true_is_false in Hclock. rewrite Hclock. by eexists.
Qed.

Lemma _finalize_has_recording :
  keeps (λ self _, is_Some (proc self) → is_Some (has_recording self))
    (_finalize env).
Proof.
  intros self w _.
  destruct (_finalize_returns env self w) as (self' & w' & -> & Hproc).
  cbn. rewrite Hproc. by intros [? [=]].
Qed.

(** When the clock never reads [0.0], every child that a session supervises
    has the path and the start time that [_finalize] tests for. *)
Lemma session_has_recording (Hclock : ∀ n, ¬ (clock env n == 0)%Q)
    (cfg : Config) (w : World) (inputs : list (input V)) :
  is_Some (proc (session env cfg w inputs).1) →
  is_Some (has_recording (session env cfg w inputs).1).
Proof.
  set (J := λ (self : Recorder) (_ : World),
              is_Some (proc self) → is_Some (has_recording self)).
  assert (∀ (self : Recorder) (w w' : World), J self w → J self w') as Hblind
    by done.
  assert (∀ interface changed invalidated,
            keeps J (on_properties_changed env interface changed invalidated))
    as Hstep.
  { intros interface changed invalidated.
    keeps_walk Hblind
      ltac:(first [apply _finalize_has_recording
                  | apply (_start_has_recording Hclock)])
      ltac:(by intros ? ? ?). }
  assert (keeps J (__init__ env;; prime env)) as Hstart.
  { keeps_walk Hblind
      ltac:(first [apply _finalize_has_recording
                  | apply (_start_has_recording Hclock)])
      ltac:(by intros ? ? ?). }
  assert (∀ s, J s.1 s.2 → J (run env s inputs).1 (run env s inputs).2) as Hrun.
  { induction inputs as [|i inputs IH]; intros s Hs; [done|].
    cbn [run foldl]. apply IH. destruct i as [interface changed invalidated|fs|p].
    - pose proof (Hstep interface changed invalidated s.1 s.2 Hs) as Hk.
      cbn [deliver].
      by destruct (on_properties_changed env interface changed invalidated s.1 s.2)
        as [[r self'] w'].
    - done.
    - done. }
  unfold session. specialize (Hstart (new_Recorder cfg) w).
  fold (startup env cfg w) in Hstart.
  destruct (startup env cfg w) as [[[[]|e] self] w'].
  - apply (Hrun (self, w')), Hstart. by intros [? [=]].
  - apply Hstart. by intros [? [=]].
Qed.

(** *** The test of the title *)

Lemma _start_children (md : Metadata) (self : Recorder) (w : World) :
  children (_start env md self w).2 = children w
  ∨ ∃ out_path,
      children (_start env md self w).2
      = children w ++ [{| argv := ffmpeg_cmd (config self) md out_path;
                          interrupted := false; state := Running |}].
Proof.
  destruct (dedupe (config self) && Py.truthy (url md)
            && bool_decide (url md ∈ seen_urls self)) eqn:Hcond.
  - apply andb_prop in Hcond as [Hcond Hseen]. apply andb_prop in Hcond as [Hd Hu].
    apply bool_decide_eq_true in Hseen. apply truthy_spec in Hu.
    rewrite _start_skip by done. left. cbn.
    by destruct (writable env (tick w)).
  - destruct (_start_record env md self w Hcond) as (out_path & _ & _ & ->).
    destruct (spawnable env (tick w)); cbn; [|by left].
    right. exists out_path. by destruct (writable env (S (S (tick w)))).
Qed.

(** [_ensure_started] spawns at most one encoder, and only for metadata with
    a title. *)
Lemma _ensure_started_needs_title (self : Recorder) (w : World) :
  children (_ensure_started env self w).2 = children w
  ∨ ∃ md out_path,
      title md ≠ ""
      ∧ children (_ensure_started env self w).2
        = children w ++ [{| argv := ffmpeg_cmd (config self) md out_path;
                            interrupted := false; state := Running |}].
Proof.
  unfold _ensure_started. mrun.
  destruct (negb (bool_decide (playback_status self = Some "Playing"))
            || bool_decide (is_Some (proc self))); mrun; [by left|].
  destruct (has_title (pending self)) eqn:Hpending; mrun.
  - destruct (pending self) as [md|]; [|done]. cbn in Hpending. rewrite Hpending.
    destruct (_start_children md self w) as [Hsame | [out_path Hnew]];
      [by left | right]. exists md, out_path. by apply truthy_spec in Hpending.
  - unfold get_metadata, props_Get_Metadata, ask. mrun.
    destruct (normalize (player_metadata env (tick w))) as [md|e]; mrun;
      [|by left].
    destruct (Py.truthy (title md)) eqn:Htitle; [|by left].
    destruct (_start_children md (set_pending (Some md) self)
                (set_tick (S (tick w)) w)) as [Hsame | [out_path Hnew]];
      [by left | right]. exists md, out_path. by apply truthy_spec in Htitle.
Qed.

(** C2 (as amended): from startup on and after every input, the output path
    and the start time are set exactly when a child process is supervised,
    the track id and the url are set together, and they are set whenever a
    child process is supervised.  (They may be set without a child process:
    the dedupe skip assigns them.) *)
Theorem supervised_after_every_event
    (cfg : Config) (w : World) (inputs : list (input V)) (n : nat) :
  supervised (session env cfg w (take n inputs)).1.
Proof.
  unfold session. pose proof (startup_supervised cfg w) as Hstart.
  destruct (startup env cfg w) as [[[[]|e] self] w']; cbn in Hstart; [|done].
  by apply run_supervised.
Qed.

(** C4: with deduplication on, once a non-empty url is in the index it stays
    there through any further inputs, and every later [_start] for a track
    with that url is a skip: it returns normally, spawns no child, leaves the
    files, the output path, the in-memory set and the index file as they
    were, writes the [skipped] status, and sets the last-seen track id to the
    skipped track's id. *)
Theorem duplicate_start_is_skipped
    (md : Metadata) (self : Recorder) (w : World) (inputs : list (input V))
    (Hdedupe : dedupe (config self) = true)
    (Hurl : url md ≠ "")
    (Hseen : url md ∈ seen_urls self) :
  let self1 := (run env (self, w) inputs).1 in
  let w1 := (run env (self, w) inputs).2 in
  url md ∈ seen_urls self1
  ∧ ∃ self' w',
      _start env md self1 w1 = (Ok (), self', w')
      ∧ self' = set_current_url (Some (url md))
                  (set_current_track_id (Some (trackid md)) self1)
      ∧ current_track_id self' = Some (trackid md)
      ∧ proc self' = proc self1 ∧ current_path self' = current_path self1
      ∧ seen_urls self' = seen_urls self1
      ∧ children w' = children w1 ∧ files w' = files w1
      ∧ index_file w' = index_file w1
      ∧ status_file w'
        = (if writable env (tick w1)
           then Some [("STATE", Text "skipped");
                      ("ARTIST", Text (Py.strip (artist md)));
                      ("TITLE", Text (Py.strip (title md)));
                      ("SPOTIFY_URL", Text (url md))]
           else status_file w1).
Proof.
  intros self1 w1. destruct (run_extends inputs self w) as [Hcfg Hsub].
  fold self1 in Hcfg, Hsub.
  assert (url md ∈ seen_urls self1) as Hseen1 by by apply Hsub.
  split; [done|].
  rewrite (_start_skip env md self1 w1) by (rewrite ?Hcfg; done).
  do 2 eexists. split; [done|]. cbn.
  by destruct (writable env (tick w1)).
Qed.

End SessionProperties.

(** ** The sessions of the example *)


(** C8 does not hold for every URL: [_append_index] returns at once on the
    empty URL, which does not enter the in-memory set. *)
Lemma empty_url_is_not_recorded :
  _append_index Example.env "" Example.recording (Example.world_at 7 ∅)
  = (Ok (), Example.recording, Example.world_at 7 ∅)
  ∧ "" ∉ seen_urls (_append_index Example.env "" Example.recording
                      (Example.world_at 7 ∅)).1.2.
Proof.
  assert (_append_index Example.env "" Example.recording (Example.world_at 7 ∅)
          = (Ok (), Example.recording, Example.world_at 7 ∅)) as Hrun
    by reflexivity.
  split; [exact Hrun|]. rewrite Hrun. cbn. apply not_elem_of_empty.
Qed.

(** C2 does not hold as an equivalence: deduplication is on and the index
    lists the url of the track; when the player starts playing, [_start]
    skips and sets the track id and the url, and no child process is
    supervised. *)
Lemma skip_sets_context_without_child :
  let self :=
    (session Example.env (Example.cfg true) Example.indexed_world
       [Example.playing]).1 in
  current_url self = Some Example.url_a
  ∧ current_track_id self = Some "/com/spotify/track/a"
  ∧ proc self = None
  ∧ ¬ (context_set self ↔ is_Some (proc self)).
Proof.
  cbn zeta.
  assert (current_url (session Example.env (Example.cfg true) Example.indexed_world
                         [Example.playing]).1 = Some Example.url_a) as Hurl
    by (vm_compute; reflexivity).
  assert (proc (session Example.env (Example.cfg true) Example.indexed_world
                  [Example.playing]).1 = None) as Hproc
    by (vm_compute; reflexivity).
  split; [done|]. split; [vm_compute; reflexivity|]. split; [done|].
  intros [Hctx _]. rewrite Hproc in Hctx.
  destruct Hctx as [p [=]]. right. right. right. rewrite Hurl. by eexists.
Qed.

(** C1, the failing session: [Alpha] is being recorded when the player
    announces the next track with an id and no title.  The handler finalizes
    and calls [_start] without the test of [_ensure_started]: a second
    encoder runs with the tag [TITLE=] and writes [unknown.flac]. *)
Lemma track_advance_spawns_untitled :
  let s :=
    session Example.env (Example.cfg false) Example.empty_world
      [Example.playing; Example.metadata_changed] in
  (title <$> pending s.1) = Some ""
  ∧ proc s.1 = Some 1%nat
  ∧ current_path s.1 = Some "/music/unknown.flac"
  ∧ ∃ c, children s.2 !! 1%nat = Some c
         ∧ title_tag c = Some "TITLE=" ∧ state c = Running.
Proof.
  cbn zeta. split; [vm_compute; reflexivity|]. split; [vm_compute; reflexivity|].
  split; [vm_compute; reflexivity|].
  eexists. split; [vm_compute; reflexivity|]. split; vm_compute; reflexivity.
Qed.

(** ** The theorems at the example *)


(** C8 at [url_a], on a disk where neither file can be written. *)
Lemma persistence_failures_are_swallowed_witness :
  Example.url_a ≠ ""
  ∧ writable readonly_env (tick (Example.world_at 7 ∅)) = false
  ∧ (∃ self' w',
       _append_index readonly_env Example.url_a Example.recording
         (Example.world_at 7 ∅) = (Ok (), self', w')
       ∧ Example.url_a ∈ seen_urls self'
       ∧ index_file w' = None)
  ∧ (∃ w',
       _write_status readonly_env [("STATE", Text "idle")] Example.recording
         (Example.world_at 7 ∅) = (Ok (), Example.recording, w')
       ∧ status_file w' = None).
Proof.
  assert (Example.url_a ≠ "") as Hurl by discriminate.
  split; [exact Hurl|]. split; [reflexivity|].
  destruct (persistence_failures_are_swallowed readonly_env Example.url_a
              [("STATE", Text "idle")] Example.recording (Example.world_at 7 ∅)
              Hurl)
    as [(self' & w' & Hrun & Hin & _ & _ & Hindex) (w2 & Hstatus & Hfile & _)].
  split.
  - exists self', w'. split; [exact Hrun|]. split; [exact Hin | exact Hindex].
  - exists w2. split; [exact Hstatus | exact Hfile].
Defined.

(** C3 at a recording of 400 seconds. *)
Lemma finalize_keeps_or_drops_witness :
  proc Example.recording = Some 0%nat
  ∧ has_recording Example.recording = Some ("/music/Alpha.flac", inject_Z 1400)
  ∧ ∃ self' w',
      _finalize Example.env Example.recording
        (Example.world_at 7 {["/music/Alpha.flac"]}) = (Ok (), self', w')
      ∧ proc self' = None ∧ files w' = {["/music/Alpha.flac"]}.
Proof.
  assert (has_recording Example.recording
          = Some ("/music/Alpha.flac", inject_Z 1400)) as Hrec
    by (vm_compute; reflexivity).
  split; [reflexivity|]. split; [exact Hrec|].
  pose proof (finalize_keeps_or_drops Example.env Example.recording
                (Example.world_at 7 {["/music/Alpha.flac"]}) 0
                "/music/Alpha.flac" (inject_Z 1400) eq_refl Hrec) as Hfin.
  cbn zeta in Hfin.
  destruct Hfin as (self' & w' & Hrun & Hproc & _ & _ & _ & _ & Hkeep & _).
  exists self', w'. split; [exact Hrun|]. split; [exact Hproc|].
  apply Hkeep. vm_compute. discriminate.
Defined.

(** C10 at a recording stopped at once, its file never written. *)
Lemma finalize_drop_missing_file_witness :
  proc Example.recording = Some 0%nat
  ∧ has_recording Example.recording = Some ("/music/Alpha.flac", inject_Z 1400)
  ∧ (clock Example.env 4 - inject_Z 1400
     < inject_Z (min_seconds (config Example.recording)))%Q
  ∧ ("/music/Alpha.flac" ∉ files (Example.world_at 3 ∅))
  ∧ ∃ self' w',
      _finalize Example.env Example.recording (Example.world_at 3 ∅)
        = (Ok (), self', w')
      ∧ current_path self' = None ∧ files w' = ∅.
Proof.
  assert (has_recording Example.recording
          = Some ("/music/Alpha.flac", inject_Z 1400)) as Hrec
    by (vm_compute; reflexivity).
  assert (clock Example.env 4 - inject_Z 1400
          < inject_Z (min_seconds (config Example.recording)))%Q as Hshort
    by (vm_compute; reflexivity).
  assert ("/music/Alpha.flac" ∉ files (Example.world_at 3 ∅)) as Hmissing
    by apply not_elem_of_empty.
  split; [reflexivity|]. split; [exact Hrec|]. split; [exact Hshort|].
  split; [exact Hmissing|].
  destruct (finalize_drop_missing_file Example.env Example.recording
              (Example.world_at 3 ∅) 0 "/music/Alpha.flac" (inject_Z 1400)
              eq_refl Hrec Hshort Hmissing)
    as [_ (self' & w' & Hrun & _ & Hpath & _ & _ & _ & _ & Hfiles & _)].
  exists self', w'. split; [exact Hrun|]. split; [exact Hpath | exact Hfiles].
Defined.


(** C4 at [track_a], after startup and one more signal. *)
Lemma duplicate_start_is_skipped_witness :
  let self := (startup Example.env (Example.cfg true) Example.indexed_world).1.2 in
  let w := (startup Example.env (Example.cfg true) Example.indexed_world).2 in
  dedupe (config self) = true
  ∧ url Example.md_a ≠ ""
  ∧ url Example.md_a ∈ seen_urls self
  ∧ ∃ self' w',
      _start Example.env Example.md_a
        (run Example.env (self, w) [Example.playing]).1
        (run Example.env (self, w) [Example.playing]).2 = (Ok (), self', w')
      ∧ current_track_id self' = Some (trackid Example.md_a)
      ∧ children w' = children (run Example.env (self, w) [Example.playing]).2.
Proof.
  intros self w.
  assert (dedupe (config self) = true) as Hdedupe by (vm_compute; reflexivity).
  assert (url Example.md_a ≠ "") as Hurl by discriminate.
  assert (bool_decide (url Example.md_a ∈ seen_urls self) = true) as Hseen
    by (vm_compute; reflexivity).
  apply bool_decide_eq_true in Hseen.
  split; [exact Hdedupe|]. split; [exact Hurl|]. split; [exact Hseen|].
  destruct (duplicate_start_is_skipped Example.env Example.md_a self w
              [Example.playing] Hdedupe Hurl Hseen)
    as (_ & self' & w' & Hrun & _ & Htrack & _ & _ & _ & Hchildren & _).
  exists self', w'. split; [exact Hrun|]. split; [exact Htrack | exact Hchildren].
Defined.

(** * More of the recorder *)

(** ** Choosing the player *)

(** X1: [pick_mpris_player] answers [None] exactly when no name on the bus has
    the MPRIS prefix.  Otherwise it answers a name of the bus with that
    prefix: the preferred player (given bare or with the prefix) when it is on
    the bus, and else the least MPRIS name in the order of [sorted]. *)
Theorem pick_mpris_player_chooses (bus_names : list string) (preferred : option string) :
  let names := filter (λ n, String.prefix MPRIS_PREFIX n = true) bus_names in
  let qualified pref :=
    if String.prefix MPRIS_PREFIX pref then pref else MPRIS_PREFIX +:+ pref in
  (pick_mpris_player bus_names preferred = None ↔ names = [])
  ∧ (∀ name, pick_mpris_player bus_names preferred = Some name →
       name ∈ bus_names ∧ String.prefix MPRIS_PREFIX name = true
       ∧ ((∃ pref, preferred = Some pref ∧ pref ≠ "" ∧ name = qualified pref)
          ∨ (∀ n, n ∈ names → (name ≤ n)%string)))
  ∧ (∀ pref, preferred = Some pref → pref ≠ "" → qualified pref ∈ names →
       pick_mpris_player bus_names preferred = Some (qualified pref))
  ∧ (∀ pref, preferred = Some pref → qualified pref ∉ names →
       ∀ name, pick_mpris_player bus_names preferred = Some name →
       ∀ n, n ∈ names → (name ≤ n)%string).
Proof.
  intros names qualified.
  assert (∀ n, n ∈ names → n ∈ bus_names ∧ String.prefix MPRIS_PREFIX n = true)
    as Hnames.
  { intros n Hn. by apply list_elem_of_filter in Hn as [? ?]. }
  unfold pick_mpris_player. fold names. clearbody names.
  destruct names as [|n0 names'].
  { split; [done|]. split; [done|]. split; [|done].
    intros pref _ _ Hin. by apply elem_of_nil in Hin. }
  set (names := n0 :: names') in *.
  assert (∃ least, head (merge_sort (≤)%string names) = Some least
                   ∧ least ∈ names ∧ ∀ n, n ∈ names → (least ≤ n)%string)
    as (least & Hleast & Hin & Hle).
  { pose proof (StronglySorted_merge_sort (≤)%string names) as Hsorted.
    pose proof (merge_sort_Permutation (≤)%string names) as Hperm.
    destruct (merge_sort (≤)%string names) as [|x l].
    { by apply Permutation_nil_l in Hperm. }
    exists x. split; [done|]. split.
    - rewrite <- Hperm. left.
    - intros n Hn. rewrite <- Hperm in Hn.
      apply elem_of_cons in Hn as [->|Hn]; [done|].
      apply StronglySorted_inv in Hsorted as [_ Hall].
      by eapply Forall_forall in Hall. }
  assert (names ≠ []) as Hne by done.
  assert (∀ o : option string, is_Some o → (o = None ↔ names = [])) as Hiff.
  { intros o [x ->]. by split. }
  destruct preferred as [pref|]; [|rewrite Hleast].
  - destruct (Py.truthy pref) eqn:Hpref; [|rewrite Hleast].
    + fold (qualified pref). apply truthy_spec in Hpref.
      case_bool_decide as Hq; [|rewrite Hleast].
      * split; [by apply Hiff|]. split; [|split].
        -- intros name [= <-]. destruct (Hnames _ Hq).
           split; [done|]. split; [done|]. left. by exists pref.
        -- by intros ? [= <-].
        -- by intros ? [= <-] ?.
      * split; [by apply Hiff|]. split; [|split].
        -- intros name [= <-]. destruct (Hnames _ Hin).
        split; [done|]. split; [done|]. by right.
        -- by intros ? [= <-].
        -- by intros ? [= <-] _ ? [= <-].
    + split; [by apply Hiff|]. split; [|split].
      * intros name [= <-]. destruct (Hnames _ Hin).
        split; [done|]. split; [done|]. by right.
      * intros ? [= <-] Hp. apply truthy_spec in Hp. congruence.
      * by intros ? [= <-] _ ? [= <-].
  - split; [by apply Hiff|]. split; [|done].
    intros name [= <-]. destruct (Hnames _ Hin).
        split; [done|]. split; [done|]. by right.
Qed.

(** ** File names *)

Lemma chars_str_of (l : list ascii) : Py.chars (Py.str_of l) = l.
Proof. apply String.list_ascii_of_string_of_list_ascii. Qed.

Lemma str_of_chars (s : string) : Py.str_of (Py.chars s) = s.
Proof. apply String.string_of_list_ascii_of_string. Qed.

Lemma chars_app (s t : string) : Py.chars (s +:+ t) = Py.chars s ++ Py.chars t.
Proof.
  induction s as [|c s IH]; [done|].
  change (c :: Py.chars (s +:+ t) = c :: Py.chars s ++ Py.chars t). by f_equal.
Qed.

Lemma lstrip_by_drop (p : ascii → bool) (l : list ascii) :
  ∃ k, Py.lstrip_by p l = drop k l
       ∧ ∀ c, head (Py.lstrip_by p l) = Some c → p c = false.
Proof.
  induction l as [|c l (k & Hk & Hhead)]; [by exists 0%nat|].
  cbn. destruct (p c) eqn:Hc.
  - by exists (S k).
  - exists 0%nat. split; [done|]. by intros ? [= <-].
Qed.

Lemma strip_by_chars (p : ascii → bool) (s : string) :
  ∃ j n, Py.chars (Py.strip_by p s) = take n (drop j (Py.chars s))
         ∧ (∀ c, head (Py.chars (Py.strip_by p s)) = Some c → p c = false)
         ∧ (∀ c, last (Py.chars (Py.strip_by p s)) = Some c → p c = false).
Proof.
  unfold Py.strip_by. rewrite chars_str_of.
  destruct (lstrip_by_drop p (Py.chars s)) as (j & Hj & Hhead).
  destruct (lstrip_by_drop p (reverse (Py.lstrip_by p (Py.chars s))))
    as (k & Hk & Hlast).
  exists j, (length (Py.lstrip_by p (Py.chars s)) - k)%nat.
  rewrite last_reverse. split; [|split; [|done]].
  - by rewrite Hk, drop_reverse, reverse_involutive, Hj.
  - rewrite Hk, drop_reverse, reverse_involutive.
    intros c Hc. apply Hhead.
    destruct (Py.lstrip_by p (Py.chars s)) as [|d l]; [by rewrite take_nil in Hc|].
    by destruct (length (d :: l) - k)%nat.
Qed.

Lemma strip_by_Forall (P : ascii → Prop) (p : ascii → bool) (s : string) :
  Forall P (Py.chars s) → Forall P (Py.chars (Py.strip_by p s)).
Proof.
  intros HP. destruct (strip_by_chars p s) as (j & n & -> & _).
  by apply Forall_take, Forall_drop.
Qed.

Lemma sub_runs_Forall (P : ascii → Prop) (cls : ascii → bool) (rep : ascii)
    (in_run : bool) (l : list ascii) :
  P rep → (∀ c, c ∈ l → cls c = false → P c) →
  Forall P (Py.sub_runs cls rep in_run l).
Proof.
  intros Hrep. revert in_run. induction l as [|c l IH]; intros in_run Hl; cbn.
  { constructor. }
  assert (Forall P (Py.sub_runs cls rep true l)
          ∧ Forall P (Py.sub_runs cls rep false l)) as [Ht Hf].
  { split; apply IH; intros d Hd; apply Hl; by right. }
  destruct (cls c) eqn:Hc.
  - destruct in_run; [done | by constructor].
  - constructor; [|done]. apply Hl; [left | done].
Qed.

Lemma sanitize_chars (s : string) :
  let name := Py.chars (sanitize s) in
  sanitize s ≠ ""
  ∧ (length name ≤ 180)%nat
  ∧ Forall (λ c, forbidden c = false) name
  ∧ Forall (λ c, Py.isspace c = true → c = " "%char) name
  ∧ (∀ c, head name = Some c → Py.isspace c = false).
Proof.
  unfold sanitize.
  set (s2 := Py.re_sub_runs forbidden "_" (Py.strip s)).
  set (s3 := Py.strip (Py.re_sub_runs Py.isspace " " s2)).
  assert (Forall (λ c, forbidden c = false) (Py.chars s2)) as Hs2.
  { unfold s2, Py.re_sub_runs. rewrite chars_str_of.
    by apply sub_runs_Forall. }
  assert (Forall (λ c, forbidden c = false) (Py.chars s3)) as Hforbidden.
  { apply strip_by_Forall. unfold Py.re_sub_runs. rewrite chars_str_of.
    apply sub_runs_Forall; [done|]. intros c Hc _.
    by eapply Forall_forall in Hs2. }
  assert (Forall (λ c, Py.isspace c = true → c = " "%char) (Py.chars s3))
    as Hblank.
  { apply strip_by_Forall. unfold Py.re_sub_runs. rewrite chars_str_of.
    apply sub_runs_Forall; [done|]. intros c _ Hc. by rewrite Hc. }
  destruct (strip_by_chars Py.isspace (Py.re_sub_runs Py.isspace " " s2))
    as (_ & _ & _ & Hhead & _). fold (Py.strip (Py.re_sub_runs Py.isspace " " s2)) in Hhead.
  fold s3 in Hhead.
  destruct (Py.truthy s3) eqn:Htruthy; cbn zeta.
  - unfold Py.prefix. rewrite chars_str_of.
    destruct s3 as [|c s3']; [done|]. cbn [Py.chars String.list_ascii_of_string] in *.
    split; [done|]. split; [rewrite length_take; lia|].
    split; [by apply Forall_take|]. split; [by apply Forall_take|].
    intros d [= <-]. by apply Hhead.
  - split; [done|]. vm_compute. split; [lia|].
    split; [by repeat constructor|]. split; [by repeat constructor|].
    by intros ? [= <-].
Qed.

(** X2: [sanitize] always gives a usable file name: not empty, at most 180
    characters, none of them a slash, a backslash, a colon, a star, a
    question mark, a double quote, an angle bracket or a bar, no white space
    other than the blank, and no white space in front. *)
Theorem sanitize_safe (s : string) :
  let name := Py.chars (sanitize s) in
  sanitize s ≠ ""
  ∧ (length name ≤ 180)%nat
  ∧ Forall (λ c, forbidden c = false) name
  ∧ Forall (λ c, Py.isspace c = true → c = " "%char) name
  ∧ (∀ c, head name = Some c → Py.isspace c = false).
Proof. apply sanitize_chars. Qed.

Lemma pretty_N_go_digits (x : N) (s : string) :
  Forall (λ c, is_Some (Py.digit c)) (Py.chars s) →
  Forall (λ c, is_Some (Py.digit c)) (Py.chars (pretty_N_go x s)).
Proof.
  revert s. induction (N.lt_wf_0 x) as [x _ IH]; intros s Hs.
  assert (x = 0 ∨ 0 < x)%N as [->|Hpos] by lia.
  - by rewrite pretty_N_go_0.
  - rewrite pretty_N_go_step by done. apply IH.
    { by apply N.div_lt. }
    constructor; [|done]. unfold pretty_N_char. by repeat case_match.
Qed.

Lemma str_int_digits (i : nat) :
  Forall (λ c, is_Some (Py.digit c)) (Py.chars (Py.str_int (Z.of_nat i))).
Proof.
  unfold Py.str_int, pretty, pretty_Z.
  destruct (Z.of_nat i) as [|p|p] eqn:Hi; [by repeat constructor| |lia].
  unfold pretty, pretty_positive, pretty, pretty_N.
  case_decide; [by repeat constructor|].
  apply pretty_N_go_digits. constructor.
Qed.

Lemma os_path_join_relative (a b : string) :
  starts_with_slash b = false →
  ∃ sep, os_path_join a b = a +:+ sep +:+ b
         ∧ (sep = "" ∧ (a = "" ∨ last (Py.chars a) = Some "/"%char)
            ∨ sep = "/" ∧ a ≠ "" ∧ last (Py.chars a) ≠ Some "/"%char).
Proof.
  intros Hb. unfold os_path_join. rewrite Hb.
  rewrite <- (head_reverse (Py.chars a)).
  destruct (reverse (Py.chars a)) as [|c l] eqn:Hrev.
  - exists "". apply (f_equal reverse) in Hrev.
    rewrite reverse_involutive in Hrev. cbn in Hrev.
    assert (a = "") as -> by (by destruct a). split; [done|]. left. eauto.
  - assert (a ≠ "") by (by intros ->).
    case_bool_decide as Hc.
    + exists "". subst c. split; [done|]. left. eauto.
    + exists "/". split; [done|]. right. split; [done|]. split; [done|].
      cbn. by intros [= ?].
Qed.

(** X3: The path [unique_path] returns is the output directory, a separator
    where the directory needs one, and a file name without a slash: the
    sanitized base name, the counter in parentheses after a collision, and
    [.flac].  The recording never lands outside the output directory. *)
Theorem unique_path_inside_out_dir (base : string) (self : Recorder) (w : World) :
  ∃ sep rest,
    let dir := out_dir (config self) in
    let name := sanitize base +:+ rest +:+ ".flac" in
    unique_path base self w = (Ok (dir +:+ sep +:+ name), self, w)
    ∧ (sep = "" ∧ (dir = "" ∨ last (Py.chars dir) = Some "/"%char)
       ∨ sep = "/" ∧ dir ≠ "" ∧ last (Py.chars dir) ≠ Some "/"%char)
    ∧ (rest = "" ∨ ∃ i, (2 ≤ i)%nat ∧ rest = " (" +:+ Py.str_int (Z.of_nat i) +:+ ")")
    ∧ Forall (λ c, c ≠ "/"%char) (Py.chars name).
Proof.
  destruct (sanitize_chars base) as (Hne & _ & Hforbidden & _).
  assert (Forall (λ c, c ≠ "/"%char) (Py.chars (sanitize base))) as Hclean.
  { eapply Forall_impl; [exact Hforbidden|]. by intros c Hc ->. }
  assert (∀ rest, starts_with_slash (sanitize base +:+ rest) = false) as Hrel.
  { intros rest. destruct (sanitize base) as [|c s]; [done|].
    apply Forall_cons in Hclean as [Hc _].
    change (bool_decide (c = "/"%char) = false). by apply bool_decide_eq_false_2. }
  destruct (unique_path_returns base self w) as (p & Hrun & _ & Hshape).
  cbn zeta in Hshape.
  assert (∃ rest, p = os_path_join (out_dir (config self))
                        (sanitize base +:+ rest +:+ ".flac")
                  ∧ (rest = "" ∨ ∃ i, (2 ≤ i)%nat
                       ∧ rest = " (" +:+ Py.str_int (Z.of_nat i) +:+ ")")
                  ∧ Forall (λ c, c ≠ "/"%char) (Py.chars rest))
    as (rest & -> & Hrest & Hrest_clean).
  { destruct Hshape as [-> | (_ & i & Hi & -> & _)].
    - exists "". split; [done|]. split; [by left | constructor].
    - exists (" (" +:+ Py.str_int (Z.of_nat i) +:+ ")"). split.
      { unfold candidate. by rewrite !string_app_assoc. }
      split; [right; eauto|]. rewrite !chars_app.
      apply Forall_app_2; [by repeat constructor|].
      apply Forall_app_2; [|by repeat constructor].
      eapply Forall_impl; [apply str_int_digits|]. by intros c [d Hd] ->. }
  destruct (os_path_join_relative (out_dir (config self))
              (sanitize base +:+ rest +:+ ".flac") (Hrel _)) as (sep & Hjoin & Hsep).
  exists sep, rest. cbn zeta. rewrite <- Hjoin. split; [done|].
  split; [done|]. split; [done|]. rewrite !chars_app.
  apply Forall_app_2; [done|]. apply Forall_app_2; [done | by repeat constructor].
Qed.

(** ** The index file *)

(** The set after reading the lines [lines] of the index file. *)
Lemma load_fold_spec (lines : list string) (seen : gset string) (u : string) :
  u ∈ foldl (λ seen line,
               let u := Py.strip line in
               if Py.truthy u then {[u]} ∪ seen else seen) seen lines
  ↔ u ∈ seen ∨ (u ≠ "" ∧ ∃ line, line ∈ lines ∧ Py.strip line = u).
Proof.
  revert seen. induction lines as [|line lines IH]; intros seen; cbn [foldl].
  { split; [by left|]. intros [?|(_ & line & Hin & _)]; [done|].
    by apply elem_of_nil in Hin. }
  rewrite IH. cbn zeta. destruct (Py.truthy (Py.strip line)) eqn:Hline.
  - apply truthy_spec in Hline. rewrite elem_of_union, elem_of_singleton. split.
    + intros [[->|?]|(Hu & l & Hl & Hs)]; [right|by left|right].
      * split; [done|]. exists line. split; [left | done].
      * split; [done|]. exists l. split; [by right | done].
    + intros [?|(Hu & l & Hl & Hs)]; [left; by right|].
      apply elem_of_cons in Hl as [->|Hl]; [left; by left|].
      right. split; [done|]. by exists l.
  - split.
    + intros [?|(Hu & l & Hl & Hs)]; [by left | right].
      split; [done|]. exists l. split; [by right | done].
    + intros [?|(Hu & l & Hl & Hs)]; [by left|].
      apply elem_of_cons in Hl as [->|Hl].
      * subst u. by destruct (Py.strip line).
      * right. split; [done|]. by exists l.
Qed.

Lemma _load_index_run (self : Recorder) (w : World) :
  ∃ self',
    _load_index self w = (Ok (), self', w)
    ∧ self' = set_seen_urls (seen_urls self') self
    ∧ seen_urls self ⊆ seen_urls self'
    ∧ (index_file w = None → self' = self)
    ∧ (∀ text, index_file w = Some text →
         ∀ u, u ∈ seen_urls self'
              ↔ u ∈ seen_urls self
                ∨ (u ≠ ""
                   ∧ ∃ line, line ∈ split_lines [] (Py.chars text)
                             ∧ Py.strip line = u)).
Proof.
  unfold _load_index, read_index_file, try_except, only. mrun.
  destruct (index_file w) as [text|]; mrun.
  - eexists. split; [done|]. cbn. split; [done|]. split.
    + intros u Hu. apply load_fold_spec. by left.
    + split; [done|]. intros ? [= <-] u. apply load_fold_spec.
  - rewrite bool_decide_eq_true_2 by done. exists self. split; [done|].
    split; [by destruct self|]. done.
Qed.

(** X4: [_load_index] on a missing index file returns normally and changes
    nothing.  On an index file that reads as text it returns normally and
    changes nothing but the in-memory set, which keeps what it had and gains
    exactly the lines of the file, stripped, that are not empty. *)
Theorem load_index_reads_lines (self : Recorder) (w : World) :
  (index_file w = None → _load_index self w = (Ok (), self, w))
  ∧ (∀ text, index_file w = Some text →
       ∃ seen,
         _load_index self w = (Ok (), set_seen_urls seen self, w)
         ∧ seen_urls self ⊆ seen
         ∧ ∀ u, u ∈ seen
                ↔ u ∈ seen_urls self
                  ∨ (u ≠ ""
                     ∧ ∃ line, line ∈ split_lines [] (Py.chars text)
                               ∧ Py.strip line = u)).
Proof.
  destruct (_load_index_run self w) as (self' & Hrun & Hself & Hsub & Hnone & Hsome).
  split.
  - intros Hmissing. by rewrite Hrun, (Hnone Hmissing).
  - intros text Htext. exists (seen_urls self').
    split; [by rewrite Hrun, <- Hself|]. split; [done|]. by apply Hsome.
Qed.

Lemma split_lines_terminated (cur l1 : list ascii) (c : ascii) (l2 : list ascii) :
  c = "010"%char ∨ c = "013"%char →
  split_lines cur (l1 ++ c :: l2) = split_lines cur (l1 ++ [c]) ++ split_lines [] l2.
Proof.
  intros Hc. revert cur. induction l1 as [|d l1 IH]; intros cur; cbn.
  - destruct Hc as [->| ->]; done.
  - destruct (bool_decide (d = "010"%char) || bool_decide (d = "013"%char)).
    + cbn. by rewrite IH.
    + apply IH.
Qed.

Lemma split_lines_one (cur l : list ascii) :
  Forall (λ c, c ≠ "010"%char ∧ c ≠ "013"%char) l →
  split_lines cur (l ++ ["010"%char]) = [Py.str_of (reverse cur ++ l)].
Proof.
  intros Hl. revert cur. induction Hl as [|c l [Hlf Hcr] _ IH]; intros cur; cbn.
  - by rewrite app_nil_r.
  - rewrite !bool_decide_eq_false_2 by done. cbn.
    rewrite IH, reverse_cons. by rewrite <- app_assoc.
Qed.

(** X5: A url that [_append_index] wrote is found again by the [_load_index] of
    the next start, and so is everything that was found before, when the url
    has no line break and no white space at its ends and the file was
    missing, empty, or ended with a line break. *)
Theorem index_round_trip {V : Type} (env : Env V)
    (url : string) (self self2 : Recorder) (w : World)
    (Hurl : url ≠ "")
    (Hstripped : Py.strip url = url)
    (Hline : Forall (λ c, c ≠ "010"%char ∧ c ≠ "013"%char) (Py.chars url))
    (Hfile : match index_file w with
             | None => True
             | Some text =>
                 text = ""
                 ∨ last (Py.chars text) = Some "010"%char
                 ∨ last (Py.chars text) = Some "013"%char
             end)
    (Hwritable : writable env (tick w) = true) :
  let w' := (_append_index env url self w).2 in
  url ∈ seen_urls (_load_index self2 w').1.2
  ∧ seen_urls (_load_index self2 w).1.2 ⊆ seen_urls (_load_index self2 w').1.2.
Proof.
  rewrite _append_index_run by done. rewrite Hwritable. cbn zeta. cbn [snd].
  set (w' := set_index_file _ _).
  destruct (_load_index_run self2 w') as (s' & -> & _ & _ & _ & Hnew).
  destruct (_load_index_run self2 w) as (s & -> & _ & _ & Hmissing & Hold).
  cbn [fst snd]. specialize (Hnew _ eq_refl).
  assert (split_lines [] (Py.chars (default "" (index_file w) +:+ url +:+ LF))
          = split_lines [] (Py.chars (default "" (index_file w))) ++ [url])
    as Hlines.
  { assert (default "" (index_file w) = ""
            ∨ ∃ l c, Py.chars (default "" (index_file w)) = l ++ [c]
                     ∧ (c = "010"%char ∨ c = "013"%char)) as Hold_text.
    { destruct (index_file w) as [text|]; [|by left].
      destruct Hfile as [-> | [Hlast|Hlast]]; [by left|right..];
        apply last_Some in Hlast as [l Hl]; exists l; eexists;
        (split; [exact Hl|]); eauto. }
    rewrite !chars_app. change (Py.chars LF) with ["010"%char].
    destruct Hold_text as [-> | (l & c & -> & Hc)].
    - change (Py.chars "") with (@nil ascii). cbn [app split_lines].
      rewrite split_lines_one by done. cbn. by rewrite str_of_chars.
    - rewrite <- app_assoc. cbn [app].
      rewrite split_lines_terminated by done.
      rewrite split_lines_one by done. cbn. by rewrite str_of_chars. }
  split.
  - apply Hnew. right. split; [done|]. exists url. rewrite Hlines.
    split; [|done]. apply elem_of_app. right. left.
  - intros u Hu. apply Hnew.
    destruct (index_file w) as [text|] eqn:Hidx.
    + apply (Hold _ eq_refl) in Hu as [?|(Hne & line & Hin & Hs)]; [by left|].
      right. split; [done|]. exists line. rewrite Hlines. cbn [default].
      split; [|done]. apply elem_of_app. by left.
    + rewrite (Hmissing eq_refl) in Hu. by left.
Qed.

(** ** Summaries of the methods that act on the child *)

Lemma list_alter_alter {A} (f g : A → A) (i : nat) (l : list A) :
  alter g i (alter f i l) = alter (g ∘ f) i l.
Proof.
  revert i. induction l as [|x l IH]; intros [|i]; cbn; [done..|].
  f_equal. apply IH.
Qed.

Section Summaries.
Context {V : Type} `{PyValue V} (env : Env V).

Lemma _finalize_summary (self : Recorder) (w : World) :
  ∃ self' w',
    _finalize env self w = (Ok (), self', w')
    ∧ config self' = config self
    ∧ playback_status self' = playback_status self
    ∧ pending self' = pending self
    ∧ proc self' = None
    ∧ seen_urls self ⊆ seen_urls self'
    ∧ (dedupe (config self) = false →
         seen_urls self' = seen_urls self ∧ index_file w' = index_file w)
    ∧ children w'
      = match proc self with
        | Some p => alter (stop_child (exits_in_time env (tick w))) p (children w)
        | None => children w
        end
    ∧ (files w' = files w
       ∨ ∃ path, is_Some (proc self) ∧ current_path self = Some path
                 ∧ files w' = files w ∖ {[path]})
    ∧ (proc self = None → self' = self ∧ w' = w).
Proof.
  destruct (proc self) as [p|] eqn:Hproc.
  - unfold _finalize. mrun. rewrite Hproc.
    mcases; do 2 eexists; (split; [done|]); cbn;
      rewrite ?list_alter_alter;
      repeat match goal with
        | Hrec : has_recording _ = Some _ |- _ =>
            apply has_recording_inv in Hrec as (Hpath & _ & _ & _)
        | Hd : dedupe _ && _ = true |- _ => apply andb_prop in Hd as [Hd _]
        end;
      split_and!; try done; try set_solver; try (intros; congruence);
      try (by left); try (right; eexists; split_and!; eauto; done).
  - rewrite _finalize_idle by done. do 2 eexists. split; [done|].
    rewrite Hproc. split_and!; try done. by left.
Qed.

Lemma _start_summary (md : Metadata) (self : Recorder) (w : World) :
  (dedupe (config self) = true ∧ url md ≠ "" ∧ url md ∈ seen_urls self
   ∧ ∃ w', _start env md self w
           = (Ok (), set_current_url (Some (url md))
                       (set_current_track_id (Some (trackid md)) self), w')
           ∧ children w' = children w ∧ files w' = files w
           ∧ index_file w' = index_file w)
  ∨ (∃ out_path now w',
       _start env md self w
       = (Ok (), set_current_url (Some (url md))
                   (set_current_track_id (Some (trackid md))
                      (set_current_started_at (Some now)
                         (set_current_path (Some out_path)
                            (set_proc (Some (length (children w))) self)))), w')
       ∧ out_path ≠ "" ∧ (out_path ∉ files w)
       ∧ children w'
         = children w ++ [{| argv := ffmpeg_cmd (config self) md out_path;
                             interrupted := false; state := Running |}]
       ∧ files w' = files w ∧ index_file w' = index_file w)
  ∨ (∃ w', _start env md self w = (Raise OSError, self, w')
           ∧ children w' = children w ∧ files w' = files w
           ∧ index_file w' = index_file w).
Proof.
  destruct (dedupe (config self) && Py.truthy (url md)
            && bool_decide (url md ∈ seen_urls self)) eqn:Hcond.
  - apply andb_prop in Hcond as [Hcond Hseen]. apply andb_prop in Hcond as [Hd Hu].
    apply bool_decide_eq_true in Hseen. apply truthy_spec in Hu.
    left. split; [done|]. split; [done|]. split; [done|].
    rewrite _start_skip by done. eexists. split; [done|].
    by destruct (writable env (tick w)).
  - destruct (_start_record env md self w Hcond) as (out_path & Hpath & Hfree & ->).
    apply unique_path_nonempty in Hpath. right.
    destruct (spawnable env (tick w)); cbn zeta.
    + left. do 3 eexists. split; [done|]. split; [done|]. split; [done|].
      by destruct (writable env (S (S (tick w)))).
    + right. by eexists.
Qed.

Lemma get_metadata_run (self : Recorder) (w : World) :
  get_metadata env self w
  = (normalize (player_metadata env (tick w)), self, set_tick (S (tick w)) w).
Proof. unfold get_metadata, props_Get_Metadata, ask. by mrun. Qed.

End Summaries.

(** ** Invariants that every step of a handler keeps *)

(** [I] does not look at the clock ticks or at the status file. *)
Lemma keeps_framed {A} I (m : M A) :
  (∀ self w w', files w' = files w → children w' = children w →
                index_file w' = index_file w → I self w → I self w') →
  (∀ self w, (m self w).1.2 = self ∧ files (m self w).2 = files w
             ∧ children (m self w).2 = children w
             ∧ index_file (m self w).2 = index_file w) →
  keeps I m.
Proof.
  intros Hframe Hm self w HI. destruct (Hm self w) as (-> & Hf & Hc & Hi).
  by eapply Hframe.
Qed.

Ltac head_of t := lazymatch t with ?f _ => head_of f | _ => t end.

Ltac framed_leaf frame :=
  apply (keeps_framed _ _ frame); intros ? ?; by repeat case_match.

Ltac framed_walk frame known leaf :=
  repeat first
    [ known
    | lazymatch goal with
      | |- keeps _ (mret _) => apply keeps_ret
      | |- keeps _ (_ ≫= _) => apply keeps_bind; [|intros ?]
      | |- keeps _ (try_except _ _ _) => apply keeps_try_except
      | |- keeps _ (try_finally _ _) => apply keeps_try_finally
      | |- keeps _ (assign _) => apply keeps_assign; leaf
      | |- keeps _ (effect _) => framed_leaf frame
      | |- keeps _ (ask _ _) => framed_leaf frame
      | |- keeps _ (raise _) => framed_leaf frame
      | |- keeps _ (lift _) => framed_leaf frame
      | |- keeps _ get_self => framed_leaf frame
      | |- keeps _ get_world => framed_leaf frame
      | |- keeps _ (match ?x with _ => _ end) => destruct x
      | |- keeps _ ?m => let h := head_of m in unfold h
      end ].

Section Framed.
Context {V : Type} `{PyValue V} (env : Env V).

(** *** With deduplication off the index is left alone *)

Lemma index_untouched_frame seen index self w w' :
  files w' = files w → children w' = children w → index_file w' = index_file w →
  index_untouched seen index self w → index_untouched seen index self w'.
Proof. intros _ _ Hi (? & ? & ?). split_and!; [done..|]. by rewrite Hi. Qed.

Lemma _finalize_index_untouched seen index :
  keeps (index_untouched seen index) (_finalize env).
Proof.
  intros self w (Hd & Hs & Hi).
  destruct (_finalize_summary env self w)
    as (self' & w' & -> & Hcfg & _ & _ & _ & _ & Hoff & _).
  destruct (Hoff Hd) as [Hs' Hi']. cbn.
  split_and!; [by rewrite Hcfg | by rewrite Hs' | by rewrite Hi'].
Qed.

Lemma _start_index_untouched seen index md :
  keeps (index_untouched seen index) (_start env md).
Proof.
  intros self w (Hd & Hs & Hi).
  destruct (_start_summary env md self w)
    as [(Hon & _) | [(p & now & w' & -> & _ & _ & _ & _ & Hi')
                    | (w' & -> & _ & _ & Hi')]].
  - congruence.
  - cbn. split_and!; [done..|]. by rewrite Hi'.
  - cbn. split_and!; [done..|]. by rewrite Hi'.
Qed.

Lemma on_properties_changed_index_untouched seen index interface changed invalidated :
  keeps (index_untouched seen index)
    (on_properties_changed env interface changed invalidated).
Proof.
  framed_walk (index_untouched_frame seen index)
    ltac:(first [apply _finalize_index_untouched | apply _start_index_untouched])
    ltac:(by intros ? ? ?).
Qed.

Lemma run_keeps (I : Recorder → World → Prop) (inputs : list (input V))
    (s : Recorder * World) :
  (∀ interface changed invalidated,
     keeps I (on_properties_changed env interface changed invalidated)) →
  (∀ self w fs, I self w → I self (set_files fs w)) →
  (∀ self w p, I self w → I self (child_exits p w)) →
  I s.1 s.2 → I (run env s inputs).1 (run env s inputs).2.
Proof.
  intros Hstep Hfiles Hexit. revert s.
  induction inputs as [|i inputs IH]; intros s Hs; [done|].
  cbn [run foldl]. apply IH. destruct i as [interface changed invalidated|fs|p].
  - pose proof (Hstep interface changed invalidated s.1 s.2 Hs) as Hk.
    cbn [deliver].
    by destruct (on_properties_changed env interface changed invalidated s.1 s.2)
      as [[r self'] w'].
  - by apply Hfiles.
  - by apply Hexit.
Qed.

(** X6: With deduplication off the recorder never reads or writes the index
    file and its in-memory set stays empty, through startup and every
    input. *)
Theorem dedupe_off_leaves_index_alone
    (cfg : Config) (w : World) (inputs : list (input V))
    (Hoff : dedupe cfg = false) :
  seen_urls (session env cfg w inputs).1 = ∅
  ∧ index_file (session env cfg w inputs).2 = index_file w.
Proof.
  set (I := index_untouched ∅ (index_file w)).
  assert (I (startup env cfg w).1.2 (startup env cfg w).2) as Hstart.
  { unfold startup.
    assert (keeps I (prime env)) as Hprime.
    { framed_walk (index_untouched_frame ∅ (index_file w))
        ltac:(first [apply _finalize_index_untouched
                    | apply _start_index_untouched])
        ltac:(by intros ? ? ?). }
    unfold mbind at 1, M_bind at 1. unfold __init__. mrun. cbn [config new_Recorder].
    rewrite Hoff. mrun. rewrite _write_status_run.
    set (w1 := if writable env (tick w) then _ else _).
    assert (I (new_Recorder cfg) w1) as HI.
    { split_and!; [done..|]. unfold w1. by destruct (writable env (tick w)). }
    apply (Hprime _ _ HI). }
  assert (I (session env cfg w inputs).1 (session env cfg w inputs).2)
    as (_ & ? & ?); [|done].
  unfold session. destruct (startup env cfg w) as [[[[]|e] self] w1]; [|done].
  apply (run_keeps I inputs (self, w1));
    [|by intros ? ? ? (? & ? & ?)|by intros ? ? ? (? & ? & ?)|done].
  apply on_properties_changed_index_untouched.
Qed.

(** *** Files *)

Lemma deletes_only_current_frame self0 w0 self w w' :
  files w' = files w → children w' = children w → index_file w' = index_file w →
  deletes_only_current self0 w0 self w → deletes_only_current self0 w0 self w'.
Proof. intros Hf _ _. unfold deletes_only_current. by rewrite Hf. Qed.

Lemma _finalize_deletes_only_current self0 w0 :
  keeps (deletes_only_current self0 w0) (_finalize env).
Proof.
  intros self w (Hsub & Hgone & Hcur).
  destruct (_finalize_summary env self w)
    as (self' & w' & Hrun & _ & _ & _ & Hproc & _ & _ & _ & Hfiles & Hidle).
  rewrite Hrun. cbn. destruct (proc self) as [p|] eqn:Hp.
  - assert (current_path self' = None) as Hnone.
    { destruct (_finalize_clears env self w p Hp)
        as (s2 & w2 & Hrun2 & _ & Hpath & _).
      congruence. }
    split_and!.
    + destruct Hfiles as [-> | (path & _ & _ & ->)]; set_solver.
    + intros q Hq0 Hq. destruct Hfiles as [Hf | (path & _ & Hpath & Hf)].
      * rewrite Hf in Hq. by apply Hgone.
      * rewrite Hf in Hq. destruct (decide (q = path)) as [->|Hne].
        -- destruct (Hcur _ Hpath) as [?|?]; done.
        -- apply Hgone; [done|]. set_solver.
    + intros q Hq. congruence.
  - destruct (Hidle eq_refl) as [-> ->]. done.
Qed.

Lemma _start_deletes_only_current self0 w0 md :
  keeps (deletes_only_current self0 w0) (_start env md).
Proof.
  intros self w (Hsub & Hgone & Hcur).
  destruct (_start_summary env md self w)
    as [(_ & _ & _ & w' & -> & _ & Hf & _)
       | [(p & now & w' & -> & _ & Hfree & _ & Hf & _)
         | (w' & -> & _ & Hf & _)]]; cbn.
  - unfold deletes_only_current. by rewrite Hf.
  - unfold deletes_only_current. rewrite Hf. cbn. split_and!; [done..|].
    intros q [= <-]. destruct (decide (p ∈ files w0)) as [Hin|]; [|by right].
    left. by apply Hgone.
  - unfold deletes_only_current. by rewrite Hf.
Qed.

(** X7: A signal handler creates no file and deletes at most one: the output
    file of the recording that was active when the signal arrived. *)
Theorem handler_deletes_only_current_recording
    (interface : string) (changed : gmap string V) (invalidated : list string)
    (self : Recorder) (w : World) :
  let w' := (on_properties_changed env interface changed invalidated self w).2 in
  files w' = files w
  ∨ ∃ path, current_path self = Some path ∧ path ∈ files w
            ∧ files w' = files w ∖ {[path]}.
Proof.
  assert (keeps (deletes_only_current self w)
            (on_properties_changed env interface changed invalidated)) as Hk.
  { framed_walk (deletes_only_current_frame self w)
      ltac:(first [apply _finalize_deletes_only_current
                  | apply _start_deletes_only_current])
      ltac:(by intros ? ? ?). }
  destruct (Hk self w) as (Hsub & Hgone & _).
  { split_and!; [done| |by left]. by intros q ? ?. }
  cbn zeta.
  set (w' := (on_properties_changed env interface changed invalidated self w).2)
    in *.
  destruct (decide (files w' = files w)) as [|Hne]; [by left|].
  assert (∃ q, q ∈ files w ∧ q ∉ files w') as (q & Hq & Hq').
  { apply dec_stable. intros Hnone. apply Hne. apply set_eq. intros x.
    split; [by apply Hsub|]. intros Hx. apply dec_stable. intros Hx'.
    apply Hnone. eauto. }
  right. exists q. split; [by apply Hgone|]. split; [done|].
  apply set_eq. intros x. rewrite elem_of_difference, elem_of_singleton. split.
  - intros Hx. split; [by apply Hsub|]. by intros ->.
  - intros [Hx Hxq]. apply dec_stable. intros Hx'.
    pose proof (Hgone _ Hq Hq'). pose proof (Hgone _ Hx Hx'). congruence.
Qed.

End Framed.

(** ** One encoder at a time *)

Lemma single_encoder_frame (s s' : Recorder) (w w' : World) :
  single_encoder s w → proc s' = proc s → children w' = children w →
  single_encoder s' w'.
Proof. unfold single_encoder. by intros ? -> ->. Qed.

Lemma single_encoder_stop (s s' : Recorder) (w w' : World) (in_time : bool) :
  single_encoder s w → proc s' = None →
  children w' = match proc s with
                | Some p => alter (stop_child in_time) p (children w)
                | None => children w
                end →
  single_encoder s' w'.
Proof.
  intros Hrun Hnone Hch i c Hi Hc. exfalso. rewrite Hch in Hi.
  destruct (proc s) as [p|] eqn:Hp.
  - destruct (decide (p = i)) as [->|Hne].
    + rewrite list_lookup_alter_eq in Hi.
      destruct (children w !! i) as [c0|]; [|done]. injection Hi as <-.
      cbn in Hc. by destruct in_time.
    + rewrite list_lookup_alter_ne in Hi by done.
      specialize (Hrun _ _ Hi Hc). congruence.
  - specialize (Hrun _ _ Hi Hc). congruence.
Qed.

Lemma single_encoder_spawn (s s' : Recorder) (w w' : World) (c : Child) :
  single_encoder s w → proc s = None →
  proc s' = Some (length (children w)) → children w' = children w ++ [c] →
  state c = Running → single_encoder s' w'.
Proof.
  intros Hrun Hnone Hproc Hch Hc. unfold single_encoder.
  rewrite Hch, Hproc.
  intros i c' Hi Hc'. apply lookup_app_Some in Hi as [Hi | [Hlen Hi]].
  - specialize (Hrun _ _ Hi Hc'). congruence.
  - apply list_lookup_singleton_Some in Hi as [Hi _]. f_equal. lia.
Qed.

Lemma single_encoder_exit (s : Recorder) (w : World) (p : nat) :
  single_encoder s w → single_encoder s (child_exits p w).
Proof.
  intros Hrun i c Hi Hc. cbn in Hi.
  destruct (decide (p = i)) as [->|Hne].
  - rewrite list_lookup_alter_eq in Hi.
    destruct (children w !! i) as [c0|] eqn:Hc0; [|done]. injection Hi as <-.
    destruct (state c0) eqn:Hstate; [done|..]; eapply Hrun; eauto; congruence.
  - rewrite list_lookup_alter_ne in Hi by done. by eapply Hrun.
Qed.

Section OneEncoder.
Context {V : Type} `{PyValue V} (env : Env V).

Lemma _finalize_one_encoder (self : Recorder) (w : World) :
  single_encoder self w →
  ∃ self' w',
    _finalize env self w = (Ok (), self', w')
    ∧ single_encoder self' w' ∧ proc self' = None
    ∧ playback_status self' = playback_status self.
Proof.
  intros Hse.
  destruct (_finalize_summary env self w)
    as (self' & w' & Hrun & _ & Hst & _ & Hproc & _ & _ & Hch & _).
  exists self', w'. split; [done|]. split; [|done].
  by eapply single_encoder_stop.
Qed.

Lemma idle_unless_playing_idle (self : Recorder) :
  proc self = None → idle_unless_playing self.
Proof. intros Hp [? Hsome]. congruence. Qed.

Lemma idle_unless_playing_status (self : Recorder) (s : string) :
  playback_status self = Some s → s ≠ "Paused" → s ≠ "Stopped" →
  idle_unless_playing self.
Proof. intros ? ? ? _. by exists s. Qed.

Lemma _start_one_encoder (md : Metadata) (self : Recorder) (w : World) :
  single_encoder self w → proc self = None →
  playback_status self = Some "Playing" →
  well_supervised (_start env md self w).1.2 (_start env md self w).2.
Proof.
  intros Hse Hnone Hplaying.
  destruct (_start_summary env md self w)
    as [(_ & _ & _ & w' & -> & Hch & _)
       | [(p & now & w' & -> & _ & _ & Hch & _)
         | (w' & -> & Hch & _)]]; cbn.
  - split; [by eapply single_encoder_frame | by apply idle_unless_playing_idle].
  - split; [by eapply single_encoder_spawn|].
    by eapply idle_unless_playing_status.
  - split; [by eapply single_encoder_frame | by apply idle_unless_playing_idle].
Qed.

Lemma _ensure_started_one_encoder : keeps well_supervised (_ensure_started env).
Proof.
  intros self w [Hse Hidle]. unfold _ensure_started. mrun.
  destruct (bool_decide (playback_status self = Some "Playing")) eqn:Hplaying;
    cbn [negb orb]; [|done].
  destruct (bool_decide (is_Some (proc self))) eqn:Hproc; [done|].
  apply bool_decide_eq_true in Hplaying. apply bool_decide_eq_false in Hproc.
  assert (proc self = None) as Hnone.
  { destruct (proc self); [|done]. by destruct Hproc. }
  destruct (has_title (pending self)) eqn:Htitle; mrun.
  - destruct (pending self) as [md|]; [|done]. cbn in Htitle. rewrite Htitle.
    by apply _start_one_encoder.
  - rewrite get_metadata_run.
    destruct (normalize (player_metadata env (tick w))) as [md|e]; mrun.
    + destruct (Py.truthy (title md)).
      * by apply _start_one_encoder.
      * cbn. split; [by eapply single_encoder_frame|done].
    + cbn. split; [by eapply single_encoder_frame|done].
Qed.

Lemma on_properties_changed_one_encoder interface changed invalidated :
  keeps well_supervised (on_properties_changed env interface changed invalidated).
Proof.
  unfold on_properties_changed.
  destruct (negb (bool_decide (interface = "org.mpris.MediaPlayer2.Player")));
    [by apply keeps_ret|].
  apply keeps_bind; [|intros _].
  - destruct (changed !! "PlaybackStatus") as [v|]; [|by apply keeps_ret].
    intros self w [Hse Hidle]. mrun.
    set (s1 := set_playback_status (Some (py_str v)) self).
    assert (single_encoder s1 w) as Hse1 by by eapply single_encoder_frame.
    case_bool_decide as Hstop.
    + destruct (_finalize_one_encoder s1 w Hse1) as (s2 & w2 & -> & ? & ? & _).
      cbn. split; [done | by apply idle_unless_playing_idle].
    + case_bool_decide as Hplay.
      * apply _ensure_started_one_encoder. split; [done|].
        apply (idle_unless_playing_status s1 (py_str v)); [done|..];
          by rewrite Hplay.
      * cbn. split; [done|].
        apply (idle_unless_playing_status s1 (py_str v)); [done|..];
          intros Heq; apply Hstop; rewrite Heq; set_solver.
  - destruct (changed !! "Metadata") as [v|]; [|by apply keeps_ret].
    intros self w [Hse Hidle]. mrun. rewrite get_metadata_run.
    destruct (normalize (player_metadata env (tick w))) as [md|e]; mrun;
      [|cbn; split; [by eapply single_encoder_frame | done]].
    set (s1 := set_pending (Some md) self).
    set (w1 := set_tick (S (tick w)) w).
    assert (well_supervised s1 w1) as HG1.
    { split; [by eapply single_encoder_frame | done]. }
    destruct (bool_decide (playback_status s1 = Some "Playing")) eqn:Hplaying;
      cbn [negb]; [|done].
    apply bool_decide_eq_true in Hplaying.
    destruct (bool_decide (is_Some (proc s1))); cbn [negb];
      [|by apply _ensure_started_one_encoder].
    destruct (Py.truthy (trackid md)
              && negb (bool_decide (Some (trackid md) = current_track_id s1)));
      [|done].
    mrun. destruct (_finalize_one_encoder s1 w1 (proj1 HG1))
      as (s2 & w2 & -> & Hse2 & Hnone & Hst).
    apply _start_one_encoder; [done..|]. by rewrite Hst.
Qed.

Lemma startup_well_supervised (cfg : Config) (w : World) :
  (∀ c, c ∈ children w → state c ≠ Running) →
  well_supervised (startup env cfg w).1.2 (startup env cfg w).2.
Proof.
  intros Hquiet.
  set (J := λ (self : Recorder) (w : World),
              single_encoder self w ∧ proc self = None).
  assert (∀ self w, J self w → well_supervised self w) as HJ.
  { intros self1 w1 [? ?]. split; [done | by apply idle_unless_playing_idle]. }
  assert (∀ self w w', files w' = files w → children w' = children w →
            index_file w' = index_file w → J self w → J self w') as Hframe.
  { intros self1 w1 w2 _ Hch _ [? ?]. split; [|done].
    by eapply single_encoder_frame. }
  assert (keeps J (__init__ env)) as Hinit.
  { framed_walk Hframe fail ltac:(by intros ? ? ?). }
  assert (J (new_Recorder cfg) w) as Hnew.
  { split; [|done]. intros i c Hi Hc.
    apply list_elem_of_lookup_2 in Hi. by destruct (Hquiet c Hi). }
  unfold startup. unfold mbind, M_bind.
  specialize (Hinit _ _ Hnew).
  destruct (__init__ env (new_Recorder cfg) w) as [[[[]|e] s1] w1]; cbn in Hinit;
    [|cbn; by apply HJ].
  unfold prime, get_playback_status, props_Get_PlaybackStatus, ask. mrun.
  rewrite get_metadata_run. cbn [tick set_tick]. mrun.
  destruct (normalize (player_metadata env (S (tick w1)))) as [md|e]; mrun.
  - set (s2 := set_pending _ _). set (w2 := set_tick _ _).
    assert (well_supervised s2 w2) as HG.
    { apply HJ. destruct Hinit. split; [|done]. by eapply single_encoder_frame. }
    case_bool_decide; [by apply _ensure_started_one_encoder | done].
  - cbn. apply HJ. destruct Hinit. split; [|done].
    by eapply single_encoder_frame.
Qed.

Lemma session_well_supervised (cfg : Config) (w : World) (inputs : list (input V)) :
  (∀ c, c ∈ children w → state c ≠ Running) →
  well_supervised (session env cfg w inputs).1 (session env cfg w inputs).2.
Proof.
  intros Hquiet. pose proof (startup_well_supervised cfg w Hquiet) as Hstart.
  unfold session. destruct (startup env cfg w) as [[[[]|e] self] w1]; [|done].
  apply (run_keeps env well_supervised inputs (self, w1)); [| | |done].
  - apply on_properties_changed_one_encoder.
  - intros s w2 fs [? ?]. split; [|done]. by eapply single_encoder_frame.
  - intros s w2 p [? ?]. split; [|done]. by apply single_encoder_exit.
Qed.

(** X8: The recorder runs one encoder at a time: through startup and every
    input (signals, file changes, children that end by themselves), a child
    that is running is the one held in [proc]; every other child it ever
    spawned has exited or was killed, so no two children run at once. *)
Theorem one_encoder_at_a_time
    (cfg : Config) (w : World) (inputs : list (input V))
    (Hquiet : ∀ c, c ∈ children w → state c ≠ Running) :
  let self' := (session env cfg w inputs).1 in
  let w' := (session env cfg w inputs).2 in
  (∀ i c, children w' !! i = Some c → state c = Running → proc self' = Some i)
  ∧ (∀ i c, children w' !! i = Some c → proc self' ≠ Some i →
       state c = Exited ∨ state c = Killed)
  ∧ (∀ i j ci cj, children w' !! i = Some ci → children w' !! j = Some cj →
       state ci = Running → state cj = Running → i = j).
Proof.
  destruct (session_well_supervised cfg w inputs Hquiet) as [Hrun _].
  cbn zeta. split; [done|]. split.
  - intros i c Hi Hother. destruct (state c) eqn:Hstate; [|by left|by right].
    destruct Hother. by eapply Hrun.
  - intros i j ci cj Hi Hj Hci Hcj.
    pose proof (Hrun _ _ Hi Hci). pose proof (Hrun _ _ Hj Hcj). congruence.
Qed.

(** X9: While the last playback status seen is [Paused] or [Stopped], and before
    any was seen, no encoder is supervised. *)
Theorem no_encoder_while_paused
    (cfg : Config) (w : World) (inputs : list (input V))
    (Hquiet : ∀ c, c ∈ children w → state c ≠ Running) :
  let self' := (session env cfg w inputs).1 in
  (playback_status self' = None ∨ playback_status self' = Some "Paused"
   ∨ playback_status self' = Some "Stopped") →
  proc self' = None
  ∧ ∀ c, c ∈ children (session env cfg w inputs).2 → state c ≠ Running.
Proof.
  destruct (session_well_supervised cfg w inputs Hquiet) as [Hrun Hidle].
  cbn zeta. intros Hstatus.
  assert (proc (session env cfg w inputs).1 = None) as Hnone.
  { destruct (proc (session env cfg w inputs).1) as [p|] eqn:Hp; [|done].
    destruct Hidle as (s & Hs & ? & ?); [by eexists|].
    destruct Hstatus as [?|[?|?]]; congruence. }
  split; [done|]. intros c Hc Hrunning.
  apply list_elem_of_lookup_1 in Hc as [i Hi].
  specialize (Hrun _ _ Hi Hrunning). congruence.
Qed.

End OneEncoder.

(** ** What a handler can raise *)




Section Raises.
Context {V : Type} `{PyValue V} (env : Env V).



End Raises.

(** ** Finalizing *)

Section Finalizing.
Context {V : Type} `{PyValue V} (env : Env V).

(** X11: [_finalize] interrupts the supervised child and waits for it; when the
    wait fails the child is killed.  Either way the child does not run
    afterwards, its command line is as it was, and no other child is
    touched. *)
Theorem finalize_stops_the_child
    (self : Recorder) (w : World) (p : nat) (c : Child)
    (Hproc : proc self = Some p)
    (Hchild : children w !! p = Some c) :
  let w' := (_finalize env self w).2 in
  ∃ c', children w' !! p = Some c'
        ∧ argv c' = argv c ∧ interrupted c' = true
        ∧ state c' = (if exits_in_time env (tick w) then Exited else Killed)
        ∧ length (children w') = length (children w)
        ∧ ∀ i, i ≠ p → children w' !! i = children w !! i.
Proof.
  destruct (_finalize_summary env self w)
    as (self' & w' & -> & _ & _ & _ & _ & _ & _ & Hch & _).
  cbn zeta. cbn [snd]. rewrite Hch, Hproc.
  exists (stop_child (exits_in_time env (tick w)) c).
  rewrite list_lookup_alter_eq, Hchild, length_alter.
  split; [done|]. split; [done|]. split; [done|]. split; [done|]. split; [done|].
  intros i Hi. by rewrite list_lookup_alter_ne.
Qed.

(** X12: The in-memory index only gains the url of a recording that was kept:
    whatever [_finalize] adds is the non-empty url of the recording it
    finalized, deduplication is on, and the recording lasted at least the
    threshold.  The index file, when it changes, gains that url as one
    line. *)
Theorem finalize_indexes_only_kept
    (self : Recorder) (w : World) :
  let self' := (_finalize env self w).1.2 in
  let w' := (_finalize env self w).2 in
  (seen_urls self' = seen_urls self ∧ index_file w' = index_file w)
  ∨ ∃ u path t,
      current_url self = Some u ∧ u ≠ "" ∧ dedupe (config self) = true
      ∧ is_Some (proc self) ∧ has_recording self = Some (path, t)
      ∧ (inject_Z (min_seconds (config self)) <= clock env (S (tick w)) - t)%Q
      ∧ seen_urls self' = {[u]} ∪ seen_urls self
      ∧ (index_file w' = index_file w
         ∨ index_file w' = Some (default "" (index_file w) +:+ u +:+ LF)).
Proof.
  cbn zeta. destruct (proc self) as [p|] eqn:Hproc.
  2: { rewrite _finalize_idle by done. by left. }
  unfold _finalize. mrun. rewrite Hproc.
  destruct (has_recording self) as [[path t]|] eqn:Hrec.
  2: { mcases; by left. }
  destruct (float_lt (clock env (S (tick w)) - t)
              (inject_Z (min_seconds (config self)))) eqn:Hdur.
  { mcases; try congruence; by left. }
  pose proof (proj1 (float_lt_false _ _) Hdur) as Hle.
  destruct (dedupe (config self)) eqn:Hd.
  2: { mcases; by left. }
  destruct (current_url self) as [u|] eqn:Hu.
  2: { mcases; by left. }
  destruct (Py.truthy u) eqn:Htruthy.
  2: { mcases; try congruence; by left. }
  pose proof (proj1 (truthy_spec _) Htruthy) as Hne.
  right. exists u, path, t. split; [done|]. split; [done|]. split; [done|].
  split; [by eexists|]. split; [done|]. split; [done|].
  mcases; try congruence; cbn; split; eauto.
Qed.

End Finalizing.

(** ** Signals *)

Section Signals.
Context {V : Type} `{PyValue V} (env : Env V).

(** X13: A signal that only reports changed metadata updates the pending
    metadata and nothing else (no child is stopped or started, no file or
    status is written) when the player is not playing, and when a recording
    is active and the track id is empty or the one being recorded. *)
Theorem metadata_churn_is_ignored
    (changed : gmap string V) (invalidated : list string)
    (self : Recorder) (w : World) (v : V) (md : Metadata)
    (Hstatus : changed !! "PlaybackStatus" = None)
    (Hmeta : changed !! "Metadata" = Some v)
    (Hmd : normalize (player_metadata env (tick w)) = Ok md)
    (Hquiet : playback_status self ≠ Some "Playing"
              ∨ (is_Some (proc self)
                 ∧ (trackid md = "" ∨ current_track_id self = Some (trackid md)))) :
  on_properties_changed env "org.mpris.MediaPlayer2.Player" changed invalidated self w
  = (Ok (), set_pending (Some md) self, set_tick (S (tick w)) w).
Proof.
  unfold on_properties_changed. rewrite bool_decide_eq_true_2 by done.
  cbn [negb]. rewrite Hstatus, Hmeta. mrun. rewrite get_metadata_run, Hmd. mrun.
  cbn [playback_status proc current_track_id set_pending].
  destruct (decide (playback_status self = Some "Playing")) as [Hplay|Hplay].
  - destruct Hquiet as [?|[Hproc Hsame]]; [done|].
    rewrite (bool_decide_eq_true_2 _ Hplay), (bool_decide_eq_true_2 _ Hproc).
    cbn [negb]. destruct Hsame as [-> | ->]; [done|].
    rewrite (bool_decide_eq_true_2 (Some (trackid md) = Some (trackid md))) by done.
    by rewrite andb_false_r.
  - by rewrite (bool_decide_eq_false_2 _ Hplay).
Qed.

(** X14: [_ensure_started] does nothing unless the player is playing and no
    child is supervised; it spawns at most one encoder, and only for metadata
    with a title. *)
Theorem ensure_started_guards (self : Recorder) (w : World) :
  (playback_status self ≠ Some "Playing" ∨ is_Some (proc self) →
   _ensure_started env self w = (Ok (), self, w))
  ∧ (children (_ensure_started env self w).2 = children w
     ∨ ∃ md out_path,
         title md ≠ "" ∧ playback_status self = Some "Playing" ∧ proc self = None
         ∧ children (_ensure_started env self w).2
           = children w ++ [{| argv := ffmpeg_cmd (config self) md out_path;
                               interrupted := false; state := Running |}]).
Proof.
  assert (playback_status self ≠ Some "Playing" ∨ is_Some (proc self) →
          _ensure_started env self w = (Ok (), self, w)) as Hnoop.
  { intros Hguard. unfold _ensure_started. mrun.
    destruct Hguard as [Hplay|Hproc].
    - by rewrite (bool_decide_eq_false_2 _ Hplay).
    - rewrite (bool_decide_eq_true_2 _ Hproc). by rewrite orb_true_r. }
  split; [done|].
  destruct (decide (playback_status self = Some "Playing")) as [Hplay|Hplay];
    [|left; by rewrite Hnoop by by left].
  destruct (proc self) as [p|] eqn:Hproc;
    [left; by rewrite Hnoop by (right; by eexists)|].
  destruct (_ensure_started_needs_title env self w) as [?|(md & out & ? & ?)];
    [by left|right]. by exists md, out.
Qed.

End Signals.

(** ** Startup *)

Section Startup.
Context {V : Type} `{PyValue V} (env : Env V).

Lemma __init___run (cfg : Config) (w : World) :
  ∃ self1,
    __init__ env (new_Recorder cfg) w
    = (Ok (), self1,
       if writable env (tick w)
       then set_status_file (Some [("STATE", Text "idle")]) (set_tick (S (tick w)) w)
       else set_tick (S (tick w)) w)
    ∧ self1 = set_seen_urls (seen_urls self1) (new_Recorder cfg)
    ∧ (dedupe cfg = true → ∀ text, index_file w = Some text →
       ∀ u, u ∈ seen_urls self1
            ↔ u ≠ "" ∧ ∃ line, line ∈ split_lines [] (Py.chars text)
                               ∧ Py.strip line = u).
Proof.
  unfold __init__. mrun. cbn [config new_Recorder].
  destruct (dedupe cfg) eqn:Hdedupe.
  - destruct (_load_index_run (new_Recorder cfg) w)
      as (self1 & Hload & Hself & _ & _ & Hlines).
    fold (new_Recorder cfg). rewrite Hload. mrun. rewrite _write_status_run.
    exists self1. split; [done|]. split; [done|].
    intros _ text Htext u. rewrite (Hlines text Htext u).
    cbn [seen_urls new_Recorder]. set_solver.
  - mrun. rewrite _write_status_run. exists (new_Recorder cfg).
    split; [done|]. split; [done|]. done.
Qed.

Lemma prime_extends (self0 : Recorder) : keeps (extends self0) (prime env).
Proof.
  framed_walk (λ self w w' (_ : files w' = files w)
                 (_ : children w' = children w)
                 (_ : index_file w' = index_file w)
                 (HI : extends self0 self w), HI : extends self0 self w')
    ltac:(first [ apply keeps_unique_path
                | lazymatch goal with
                  | |- keeps _ (effect _) =>
                      apply (keeps_blind _ _ (extends_blind self0)); done
                  end ])
    ltac:(intros ? ? [? ?]; split; cbn; [done | set_solver]).
Qed.

(** X15: A url that the index file lists is known after a restart, whatever the
    session went through since: with deduplication on, [_start] for a track
    with that url spawns no encoder and touches no file. *)
Theorem indexed_url_is_skipped_after_restart
    (cfg : Config) (w : World) (inputs : list (input V))
    (md : Metadata) (text line : string)
    (Hon : dedupe cfg = true)
    (Hfile : index_file w = Some text)
    (Hline : line ∈ split_lines [] (Py.chars text))
    (Hurl : Py.strip line = url md)
    (Hne : url md ≠ "") :
  let self := (session env cfg w inputs).1 in
  let w1 := (session env cfg w inputs).2 in
  url md ∈ seen_urls self
  ∧ (_start env md self w1).1.1 = Ok ()
  ∧ proc (_start env md self w1).1.2 = proc self
  ∧ children (_start env md self w1).2 = children w1
  ∧ files (_start env md self w1).2 = files w1
  ∧ index_file (_start env md self w1).2 = index_file w1.
Proof.
  cbn zeta.
  assert (dedupe (config (session env cfg w inputs).1) = true
          ∧ url md ∈ seen_urls (session env cfg w inputs).1) as [Hdedupe Hseen].
  { destruct (__init___run cfg w) as (self1 & Hinit & Hself & Hlines).
    assert (extends self1 (session env cfg w inputs).1 (session env cfg w inputs).2)
      as [Hcfg Hsub].
    { unfold session, startup. unfold mbind at 1, M_bind at 1. rewrite Hinit.
      set (w0 := if writable env (tick w) then _ else _).
      pose proof (prime_extends self1 self1 w0 (extends_refl self1 w0)) as Hprime.
      destruct (prime env self1 w0) as [[[[]|e] self2] w2]; [|done].
      destruct (run_extends env inputs self2 w2) as [Hcfg Hsub].
      destruct Hprime as [Hcfg' Hsub']. cbn in Hcfg', Hsub'.
      split; [congruence | set_solver]. }
    split.
    - rewrite Hcfg, Hself. by cbn.
    - apply Hsub. apply (Hlines Hon text Hfile). split; [done|]. by exists line. }
  split; [done|].
  rewrite (_start_skip env md _ _ Hdedupe Hne Hseen). cbn.
  by destruct (writable env _).
Qed.

(** X16: [prime] on an idle recorder that finds the player playing a titled
    track which deduplication does not reject starts recording it at once:
    one child is spawned, for a path that is not yet a file, and it becomes
    the supervised one. *)
Theorem prime_records_a_playing_track
    (self : Recorder) (w : World) (md : Metadata)
    (Hidle : proc self = None)
    (Hplaying : py_str (player_status env (tick w)) = "Playing")
    (Hmd : normalize (player_metadata env (S (tick w))) = Ok md)
    (Htitle : title md ≠ "")
    (Hnew : dedupe (config self) = true → url md ≠ "" → url md ∉ seen_urls self)
    (Hspawn : spawnable env (S (S (tick w))) = true) :
  ∃ out_path self' w',
    prime env self w = (Ok (), self', w')
    ∧ (out_path ∉ files w)
    ∧ proc self' = Some (length (children w))
    ∧ current_path self' = Some out_path
    ∧ current_track_id self' = Some (trackid md)
    ∧ current_url self' = Some (url md)
    ∧ playback_status self' = Some "Playing"
    ∧ pending self' = Some md
    ∧ files w' = files w
    ∧ children w'
      = children w ++ [{| argv := ffmpeg_cmd (config self) md out_path;
                          interrupted := false; state := Running |}].
Proof.
  set (self2 := set_pending (Some md) (set_playback_status (Some "Playing") self)).
  set (w2 := set_tick (S (S (tick w))) w).
  assert (dedupe (config self2) && Py.truthy (url md)
            && bool_decide (url md ∈ seen_urls self2) = false) as Hcond.
  { cbn. destruct (dedupe (config self)) eqn:Hd; [|done].
    destruct (Py.truthy (url md)) eqn:Ht; [|done].
    apply truthy_spec in Ht. cbn. apply bool_decide_eq_false_2. by apply Hnew. }
  destruct (_start_record env md self2 w2 Hcond) as (out_path & _ & Hfree & Hstart).
  cbn [tick set_tick w2] in Hstart. rewrite Hspawn in Hstart.
  assert (prime env self w = _start env md self2 w2) as ->.
  { unfold prime, get_playback_status, props_Get_PlaybackStatus, ask. mrun.
    rewrite Hplaying, get_metadata_run. cbn [tick set_tick]. rewrite Hmd. mrun.
    rewrite (bool_decide_eq_true_2 ("Playing" = "Playing")) by done.
    unfold _ensure_started. mrun. cbn [playback_status proc set_pending set_playback_status pending].
    rewrite Hidle. cbn [has_title].
    apply truthy_spec in Htitle. rewrite Htitle. mrun. by rewrite Htitle. }
  rewrite Hstart. eexists out_path, _, _. split; [done|].
  split; [done|]. cbn.
  split_and!; try done; by destruct (writable env _).
Qed.

(** X17: [prime] on a player that is not playing only records its status and its
    metadata: no child, no file. *)
Theorem prime_waits_for_playing
    (self : Recorder) (w : World) (md : Metadata)
    (Hstatus : py_str (player_status env (tick w)) ≠ "Playing")
    (Hmd : normalize (player_metadata env (S (tick w))) = Ok md) :
  prime env self w
  = (Ok (),
     set_pending (Some md)
       (set_playback_status (Some (py_str (player_status env (tick w)))) self),
     set_tick (S (S (tick w))) w).
Proof.
  unfold prime, get_playback_status, props_Get_PlaybackStatus, ask. mrun.
  rewrite get_metadata_run. cbn [tick set_tick]. rewrite Hmd. mrun.
  by rewrite (bool_decide_eq_false_2 _ Hstatus).
Qed.

End Startup.

(** ** Shutdown *)

Section Shutdown.
Context {V : Type} `{PyValue V} (env : Env V).

(** X18: [shutdown] at the end of a session, whatever the session went through,
    leaves no encoder behind: [proc] is cleared and no child is running
    (the one that was supervised has exited or was killed); no child is
    added or forgotten. *)
Theorem shutdown_leaves_no_encoder
    (cfg : Config) (w : World) (inputs : list (input V))
    (Hquiet : ∀ c, c ∈ children w → state c ≠ Running) :
  let self := (session env cfg w inputs).1 in
  let w1 := (session env cfg w inputs).2 in
  proc (shutdown env self w1).1.2 = None
  ∧ length (children (shutdown env self w1).2) = length (children w1)
  ∧ ∀ c, c ∈ children (shutdown env self w1).2 → state c ≠ Running.
Proof.
  cbn zeta. unfold shutdown.
  destruct (session_well_supervised env cfg w inputs Hquiet) as [Hrun _].
  set (self := (session env cfg w inputs).1) in *.
  set (w1 := (session env cfg w inputs).2) in *.
  destruct (_finalize_summary env self w1)
    as (self' & w' & -> & _ & _ & _ & Hproc & _ & _ & Hch & _).
  cbn. split; [done|]. rewrite Hch.
  destruct (proc self) as [p|] eqn:Hp.
  - split; [by rewrite length_alter|].
    intros c [i Hi]%list_elem_of_lookup_1 Hrunning.
    destruct (decide (i = p)) as [->|Hne].
    + rewrite list_lookup_alter_eq in Hi.
      destruct (children w1 !! p) as [c0|]; [|done]. injection Hi as <-.
      cbn in Hrunning. by destruct (exits_in_time env (tick w1)).
    + rewrite list_lookup_alter_ne in Hi by done.
      specialize (Hrun _ _ Hi Hrunning). congruence.
  - split; [done|].
    intros c [i Hi]%list_elem_of_lookup_1 Hrunning.
    specialize (Hrun _ _ Hi Hrunning). congruence.
Qed.

End Shutdown.

(** ** Track and disc numbers *)

Lemma lstrip_by_Forall (p : ascii → bool) (l : list ascii) :
  Forall (λ c, p c = false) l → Py.lstrip_by p l = l.
Proof. intros [|c l' Hc _]; [done|]. cbn. by rewrite Hc. Qed.

Lemma strip_by_Forall_id (p : ascii → bool) (s : string) :
  Forall (λ c, p c = false) (Py.chars s) → Py.strip_by p s = s.
Proof.
  intros Hs. unfold Py.strip_by. rewrite (lstrip_by_Forall p _ Hs).
  rewrite lstrip_by_Forall by by apply Forall_reverse.
  by rewrite reverse_involutive, str_of_chars.
Qed.

Lemma digit_plain (c : ascii) :
  is_Some (Py.digit c) →
  Py.isspace c = false ∧ c ≠ "_"%char ∧ c ≠ "-"%char ∧ c ≠ "+"%char.
Proof.
  intros [d Hd]. unfold Py.digit in Hd. case_match eqn:Hrange; [|done].
  apply andb_prop in Hrange as [Hlo%N.leb_le Hhi%N.leb_le].
  split_and!.
  - unfold Py.isspace. apply orb_false_intro; apply andb_false_intro2, N.leb_gt; lia.
  - intros ->. vm_compute in Hhi. done.
  - intros ->. vm_compute in Hlo. done.
  - intros ->. vm_compute in Hlo. done.
Qed.

Lemma digit_pretty_N_char (n : N) :
  (n < 10)%N → Py.digit (pretty_N_char n) = Some (Z.of_N n).
Proof.
  intros Hn.
  assert (n = 0 ∨ n = 1 ∨ n = 2 ∨ n = 3 ∨ n = 4 ∨ n = 5 ∨ n = 6 ∨ n = 7
          ∨ n = 8 ∨ n = 9)%N as Hcases by lia.
  repeat destruct Hcases as [-> | Hcases]; try subst n; reflexivity.
Qed.

Lemma int_digits_pretty_N_go (x : N) (s : string) (b : bool) :
  Py.int_digits (Py.chars (pretty_N_go x s)) 0 b
  = Py.int_digits (Py.chars s) (Z.of_N x) (b || (0 <? x)%N).
Proof.
  revert s. induction (N.lt_wf_0 x) as [x _ IH]; intros s.
  assert (x = 0 ∨ 0 < x)%N as [->|Hpos] by lia.
  - by rewrite pretty_N_go_0, orb_false_r.
  - rewrite pretty_N_go_step by done. rewrite IH by by apply N.div_lt.
    assert (x `mod` 10 < 10)%N as Hmod by by apply N.mod_lt.
    pose proof (digit_pretty_N_char _ Hmod) as Hdigit.
    destruct (digit_plain (pretty_N_char (x `mod` 10))) as (_ & Hne & _);
      [by eexists|].
    change (Py.chars (String ?c s)) with (c :: Py.chars s). cbn [Py.int_digits].
    rewrite (bool_decide_eq_false_2 _ Hne), Hdigit.
    replace (0 <? x)%N with true by (symmetry; by apply N.ltb_lt).
    rewrite orb_true_r. f_equal.
    rewrite (N.div_mod x 10) at 3 by done. lia.
Qed.

Lemma int_of_str_str_int (i : Z) : 0 < i → Py.int_of_str (Py.str_int i) = Some i.
Proof.
  intros Hi. destruct i as [|p|p]; [lia| |lia].
  unfold Py.str_int, pretty, pretty_Z, pretty, pretty_positive, pretty, pretty_N.
  rewrite decide_False by done.
  pose proof (int_digits_pretty_N_go (N.pos p) "" false) as Hdigits.
  cbn [Py.chars String.list_ascii_of_string Py.int_digits orb N.ltb N.compare
       Z.of_N] in Hdigits.
  pose proof (pretty_N_go_digits (N.pos p) "" ltac:(constructor)) as Hall.
  unfold Py.int_of_str, Py.strip. rewrite strip_by_Forall_id.
  2: { eapply Forall_impl; [exact Hall|]. intros c Hc. by apply digit_plain. }
  destruct (Py.chars (pretty_N_go (N.pos p) "")) as [|c l]; [done|].
  apply Forall_cons_1 in Hall as [Hc _].
  destruct (digit_plain c Hc) as (_ & _ & Hminus & Hplus).
  by rewrite (bool_decide_eq_false_2 _ Hminus), (bool_decide_eq_false_2 _ Hplus).
Qed.

(** X19: [to_int_str] gives the empty string for a missing value, a value that
    [int] rejects and an integer that is not positive; for a positive integer
    it gives its decimal form, which [int] reads back as that integer. *)
Theorem to_int_str_reads_back {V : Type} `{PyValue V} (v : option V) :
  match v ≫= py_int with
  | Some i =>
      if 0 <? i
      then to_int_str v = Py.str_int i ∧ to_int_str v ≠ ""
           ∧ Py.int_of_str (to_int_str v) = Some i
      else to_int_str v = ""
  | None => to_int_str v = ""
  end.
Proof.
  destruct v as [v|]; [|done]. cbn [mbind option_bind to_int_str].
  destruct (py_int v) as [i|]; [|done].
  destruct (0 <? i) eqn:Hi; [|done]. apply Z.ltb_lt in Hi.
  pose proof (int_of_str_str_int i Hi) as Hback.
  split; [done|]. split; [|done]. intros Hempty. by rewrite Hempty in Hback.
Qed.

(** ** The properties above at the example session *)

Lemma index_round_trip_witness :
  Example.url_a ≠ ""
  ∧ Py.strip Example.url_a = Example.url_a
  ∧ writable Example.env (tick Example.empty_world) = true
  ∧ Example.url_a
    ∈ seen_urls
        (_load_index (new_Recorder (Example.cfg true))
           (_append_index Example.env Example.url_a
              (new_Recorder (Example.cfg true)) Example.empty_world).2).1.2.
Proof.
  assert (Example.url_a ≠ "") as Hurl by discriminate.
  assert (Py.strip Example.url_a = Example.url_a) as Hstripped
    by (vm_compute; reflexivity).
  assert (Forall (λ c, c ≠ "010"%char ∧ c ≠ "013"%char) (Py.chars Example.url_a))
    as Hline by (repeat (constructor; [split; discriminate|]); constructor).
  split; [exact Hurl|]. split; [exact Hstripped|]. split; [reflexivity|].
  exact (proj1 (index_round_trip Example.env Example.url_a
                  (new_Recorder (Example.cfg true)) (new_Recorder (Example.cfg true))
                  Example.empty_world Hurl Hstripped Hline I eq_refl)).
Defined.

Lemma dedupe_off_leaves_index_alone_witness :
  dedupe (Example.cfg false) = false
  ∧ seen_urls (session Example.env (Example.cfg false) Example.empty_world
                 [Example.playing; Example.metadata_changed]).1 = ∅.
Proof.
  split; [reflexivity|].
  exact (proj1 (dedupe_off_leaves_index_alone Example.env (Example.cfg false)
                  Example.empty_world [Example.playing; Example.metadata_changed]
                  eq_refl)).
Defined.

Lemma one_encoder_at_a_time_witness :
  (∀ c, c ∈ children Example.empty_world → state c ≠ Running)
  ∧ ∀ i c,
      children (session Example.env (Example.cfg false) Example.empty_world
                  [Example.playing; ChildExited 0; Example.metadata_changed]).2
        !! i = Some c →
      state c = Running →
      proc (session Example.env (Example.cfg false) Example.empty_world
              [Example.playing; ChildExited 0; Example.metadata_changed]).1
      = Some i.
Proof.
  assert (∀ c, c ∈ children Example.empty_world → state c ≠ Running) as Hquiet
    by (intros c Hc; inversion Hc).
  split; [exact Hquiet|].
  exact (proj1 (one_encoder_at_a_time Example.env (Example.cfg false)
                  Example.empty_world
                  [Example.playing; ChildExited 0; Example.metadata_changed]
                  Hquiet)).
Defined.

Lemma no_encoder_while_paused_witness :
  (∀ c, c ∈ children Example.empty_world → state c ≠ Running)
  ∧ playback_status (session Example.env (Example.cfg false) Example.empty_world
                       [Example.metadata_changed]).1 = Some "Paused"
  ∧ proc (session Example.env (Example.cfg false) Example.empty_world
            [Example.metadata_changed]).1 = None.
Proof.
  assert (∀ c, c ∈ children Example.empty_world → state c ≠ Running) as Hquiet
    by (intros c Hc; inversion Hc).
  assert (playback_status (session Example.env (Example.cfg false)
                             Example.empty_world [Example.metadata_changed]).1
          = Some "Paused") as Hpaused by (vm_compute; reflexivity).
  split; [exact Hquiet|]. split; [exact Hpaused|].
  exact (proj1 (no_encoder_while_paused Example.env (Example.cfg false)
                  Example.empty_world [Example.metadata_changed] Hquiet
                  (or_intror (or_introl Hpaused)))).
Defined.

Lemma finalize_stops_the_child_witness :
  proc Example.recording = Some 0%nat
  ∧ children (Example.world_at 7 ∅) !! 0%nat = Some Example.encoder_a
  ∧ ∃ c', children (_finalize Example.env Example.recording
                      (Example.world_at 7 ∅)).2 !! 0%nat = Some c'
          ∧ interrupted c' = true ∧ state c' = Exited.
Proof.
  split; [reflexivity|]. split; [reflexivity|].
  destruct (finalize_stops_the_child Example.env Example.recording
              (Example.world_at 7 ∅) 0 Example.encoder_a eq_refl eq_refl)
    as (c' & Hc' & _ & Hint & Hstate & _).
  exists c'. split; [exact Hc'|]. split; [exact Hint | exact Hstate].
Defined.

Lemma metadata_churn_is_ignored_witness :
  normalize (player_metadata Example.env (tick Example.empty_world))
  = Ok Example.md_a
  ∧ on_properties_changed Example.env Example.player
      {[ "Metadata" := DString "a{sv}" ]} [] (new_Recorder (Example.cfg false))
      Example.empty_world
    = (Ok (), set_pending (Some Example.md_a) (new_Recorder (Example.cfg false)),
       set_tick 1 Example.empty_world).
Proof.
  assert (normalize (player_metadata Example.env (tick Example.empty_world))
          = Ok Example.md_a) as Hmd by (vm_compute; reflexivity).
  split; [exact Hmd|].
  apply (metadata_churn_is_ignored Example.env
           {[ "Metadata" := DString "a{sv}" ]} [] (new_Recorder (Example.cfg false))
           Example.empty_world (DString "a{sv}") Example.md_a).
  - vm_compute; reflexivity.
  - vm_compute; reflexivity.
  - exact Hmd.
  - left. discriminate.
Defined.

Lemma indexed_url_is_skipped_after_restart_witness :
  dedupe (Example.cfg true) = true
  ∧ index_file Example.indexed_world = Some (Example.url_a +:+ LF)
  ∧ Example.url_a ∈ split_lines [] (Py.chars (Example.url_a +:+ LF))
  ∧ Py.strip Example.url_a = url Example.md_a
  ∧ url Example.md_a ≠ ""
  ∧ url Example.md_a
    ∈ seen_urls (session Example.env (Example.cfg true) Example.indexed_world
                   [Example.playing]).1.
Proof.
  assert (Example.url_a ∈ split_lines [] (Py.chars (Example.url_a +:+ LF)))
    as Hline by (vm_compute; constructor).
  assert (Py.strip Example.url_a = url Example.md_a) as Hurl
    by (vm_compute; reflexivity).
  assert (url Example.md_a ≠ "") as Hne by discriminate.
  split; [reflexivity|]. split; [reflexivity|]. split; [exact Hline|].
  split; [exact Hurl|]. split; [exact Hne|].
  exact (proj1 (indexed_url_is_skipped_after_restart Example.env (Example.cfg true)
                  Example.indexed_world [Example.playing] Example.md_a
                  (Example.url_a +:+ LF) Example.url_a
                  eq_refl eq_refl Hline Hurl Hne)).
Defined.

Lemma prime_records_a_playing_track_witness :
  proc (new_Recorder (Example.cfg false)) = None
  ∧ py_str (player_status playing_env (tick Example.empty_world)) = "Playing"
  ∧ normalize (player_metadata playing_env (S (tick Example.empty_world)))
    = Ok Example.md_a
  ∧ title Example.md_a ≠ ""
  ∧ spawnable playing_env (S (S (tick Example.empty_world))) = true
  ∧ ∃ self' w',
      prime playing_env (new_Recorder (Example.cfg false)) Example.empty_world
      = (Ok (), self', w')
      ∧ proc self' = Some 0%nat.
Proof.
  assert (normalize (player_metadata playing_env (S (tick Example.empty_world)))
          = Ok Example.md_a) as Hmd by (vm_compute; reflexivity).
  assert (title Example.md_a ≠ "") as Htitle by discriminate.
  assert (py_str (player_status playing_env (tick Example.empty_world)) = "Playing")
    as Hplaying by reflexivity.
  assert (dedupe (config (new_Recorder (Example.cfg false))) = true →
          url Example.md_a ≠ "" →
          url Example.md_a ∉ seen_urls (new_Recorder (Example.cfg false))) as Hnew
    by (intros Hd; discriminate Hd).
  split; [reflexivity|]. split; [exact Hplaying|]. split; [exact Hmd|].
  split; [exact Htitle|]. split; [reflexivity|].
  destruct (prime_records_a_playing_track playing_env
              (new_Recorder (Example.cfg false)) Example.empty_world Example.md_a
              eq_refl Hplaying Hmd Htitle
              Hnew eq_refl)
    as (out_path & self' & w' & Hrun & _ & Hproc & _).
  exists self', w'. split; [exact Hrun | exact Hproc].
Defined.

Lemma prime_waits_for_playing_witness :
  py_str (player_status Example.env (tick Example.empty_world)) ≠ "Playing"
  ∧ normalize (player_metadata Example.env (S (tick Example.empty_world)))
    = Ok Example.md_a
  ∧ prime Example.env (new_Recorder (Example.cfg false)) Example.empty_world
    = (Ok (),
       set_pending (Some Example.md_a)
         (set_playback_status (Some "Paused") (new_Recorder (Example.cfg false))),
       set_tick 2 Example.empty_world).
Proof.
  assert (py_str (player_status Example.env (tick Example.empty_world)) ≠ "Playing")
    as Hstatus by discriminate.
  assert (normalize (player_metadata Example.env (S (tick Example.empty_world)))
          = Ok Example.md_a) as Hmd by (vm_compute; reflexivity).
  split; [exact Hstatus|]. split; [exact Hmd|].
  exact (prime_waits_for_playing Example.env (new_Recorder (Example.cfg false))
           Example.empty_world Example.md_a Hstatus Hmd).
Defined.

Lemma shutdown_leaves_no_encoder_witness :
  (∀ c, c ∈ children Example.empty_world → state c ≠ Running)
  ∧ proc (shutdown Example.env
            (session Example.env (Example.cfg false) Example.empty_world
               [Example.playing]).1
            (session Example.env (Example.cfg false) Example.empty_world
               [Example.playing]).2).1.2 = None.
Proof.
  assert (∀ c, c ∈ children Example.empty_world → state c ≠ Running) as Hquiet
    by (intros c Hc; inversion Hc).
  split; [exact Hquiet|].
  exact (proj1 (shutdown_leaves_no_encoder Example.env (Example.cfg false)
                  Example.empty_world [Example.playing] Hquiet)).
Defined.
